(** * The libp2p resource-manager glue of go-ipfs: [core/node/libp2p/rcmgr.go]

    A shallow embedding of the constructor [ResourceManager] and of the three
    administrative entry points [NetStat], [NetLimit] and [NetSetLimit],
    together with the parts of the libraries they call into
    (go-libp2p-core's [network] package and go-libp2p-resource-manager,
    imported as [rcmgr]), followed by the properties the specification states
    about them.

    Go values are modelled as follows.
    - [int] and [int64] fields are only ever copied, so they are [Z];
      [float64] is Rocq's primitive [float].
    - A Go [error] is [option error]: [None] is [nil].
    - A pointer that may be [nil] and a map that may be [nil] are [option]s.
    - An interface value is either a type class (the manager) or a closed
      sum of the concrete types that implement it (scopes, limits); a type
      assertion [x.(T)] is a function into [option].
    - A callback that writes to a captured variable [result] and to the
      scope it is handed takes and returns both. *)

From Stdlib Require Import String Ascii ZArith Bool List Floats.
From stdpp Require Import base option gmap strings fin_maps.

Local Open Scope string_scope.
Local Open Scope Z_scope.

(** ** Errors *)

(** The errors that reach the callers of this file.  [NoResourceMgrError] is
    the package-level sentinel; every [Errorf_*] constructor stands for one
    [fmt.Errorf] call site and carries that call's arguments; [errors_New] is
    an error produced by a library (peer.Decode, os, rcmgr). *)
Inductive error : Type :=
| NoResourceMgrError
| Errorf_invalid_scope (scope : string)
| Errorf_invalid_peer_ID (p : string) (err : error)
| Errorf_unknown_limit_type (T : string)
| Errorf_opening_IPFS_PATH (err : error)
| Errorf_opening_limit_file (limitFilePath : string) (err : error)
| Errorf_parsing_limit_file (err : error)
| Errorf_creating_resource_manager (err : error)
| Errorf_applying_limits (scope : string) (err : error)
| errors_New (msg : string).

(** Go's [s[n:]] on a string at least [n] bytes long. *)
Fixpoint slice_from (n : nat) (s : string) : string :=
  match n, s with
  | O, _ => s
  | S n', String _ s' => slice_from n' s'
  | S _, EmptyString => EmptyString
  end.

(** ** Package [config] *)

Module config.

(** Modelled from the spec: [config.Flag] and its [WithDefault] live in the
    repository's [config] package, which is not among the sources; a flag
    is unset ([FlagDefault], Go's [config.Default]) or explicitly
    [FlagTrue] or [FlagFalse] ([config.True], [config.False], names Rocq
    keeps for its propositions), and an unset flag takes the default it is
    asked with. *)
Inductive Flag : Type := FlagFalse | FlagDefault | FlagTrue.

Definition WithDefault (f : Flag) (defaultValue : bool) : bool :=
  match f with
  | FlagFalse => false
  | FlagDefault => defaultValue
  | FlagTrue => true
  end.

(** Modelled from the spec: the scope-address constants of the [config]
    package.  Their lengths are fixed by the slices [scope[4:]], [scope[6:]]
    and [scope[5:]] taken in rcmgr.go. *)
Definition ResourceMgrSystemScope : string := "system".
Definition ResourceMgrTransientScope : string := "transient".
Definition ResourceMgrServiceScopePrefix : string := "svc:".
Definition ResourceMgrProtocolScopePrefix : string := "proto:".
Definition ResourceMgrPeerScopePrefix : string := "peer:".

(** Modelled from the spec: [config.ResourceMgrScopeConfig], with exactly
    the fields rcmgr.go reads and writes. *)
Record ResourceMgrScopeConfig : Type := {
  Dynamic : bool;
  Memory : Z;
  MemoryFraction : float;
  MinMemory : Z;
  MaxMemory : Z;
  Streams : Z;
  StreamsInbound : Z;
  StreamsOutbound : Z;
  Conns : Z;
  ConnsInbound : Z;
  ConnsOutbound : Z;
  FD : Z
}.

(** The zero value of the struct ([var result config.ResourceMgrScopeConfig]). *)
Definition zero : ResourceMgrScopeConfig :=
  {| Dynamic := false; Memory := 0; MemoryFraction := 0%float;
     MinMemory := 0; MaxMemory := 0;
     Streams := 0; StreamsInbound := 0; StreamsOutbound := 0;
     Conns := 0; ConnsInbound := 0; ConnsOutbound := 0; FD := 0 |}.

(** Modelled from the spec: [config.ResourceMgr], the [Swarm.ResourceMgr]
    section.  [Limits] is a Go map; it is kept as the list of its entries in
    the order the [range] loop of the constructor visits them. *)
Record ResourceMgr : Type := {
  Enabled : Flag;
  Limits : list (string * ResourceMgrScopeConfig)
}.

End config.

(** ** Package [network]: usage snapshots *)

Module network.

Record ScopeStat : Type := {
  NumStreamsInbound : Z;
  NumStreamsOutbound : Z;
  NumConnsInbound : Z;
  NumConnsOutbound : Z;
  NumFD : Z;
  Memory : Z
}.

Definition zero : ScopeStat :=
  {| NumStreamsInbound := 0; NumStreamsOutbound := 0;
     NumConnsInbound := 0; NumConnsOutbound := 0; NumFD := 0; Memory := 0 |}.

(** [network.Direction], as [getDirection] switches on it. *)
Inductive Direction : Type := DirUnknown | DirInbound | DirOutbound.

End network.

(** ** Packages [peer] and [protocol] *)

Module peer.
(** [type ID string] *)
Definition ID : Type := string.
End peer.

Module protocol.
(** [type ID string] *)
Definition ID : Type := string.
End protocol.

(** ** Package [rcmgr]: limits, scopes and the manager's state *)

Module rcmgr.

Record BaseLimit : Type := {
  Streams : Z;
  StreamsInbound : Z;
  StreamsOutbound : Z;
  Conns : Z;
  ConnsInbound : Z;
  ConnsOutbound : Z;
  FD : Z
}.

Record MemoryLimit : Type := {
  MemoryFraction : float;
  MinMemory : Z;
  MaxMemory : Z
}.

(** The [Limit] interface.  rcmgr.go recognises two implementations; Go's
    interface is open, so [otherLimit] stands for a value of any other type
    implementing it, known only by its type name (what [%T] prints). *)
Inductive Limit : Type :=
| StaticLimit (Memory : Z) (base : BaseLimit)
| DynamicLimit (memoryLimit : MemoryLimit) (base : BaseLimit)
| otherLimit (T : string).

(** A scope of the real manager: its usage and its limit.  [Limit] and
    [SetLimit] are the two methods of [ResourceScopeLimiter]. *)
Record resourceScope : Type := {
  stat : network.ScopeStat;
  limit : Limit
}.

Definition SetLimit (s : resourceScope) (l : Limit) : resourceScope :=
  {| stat := stat s; limit := l |}.

(** What [ResourceManagerState.Stat] returns. *)
Record ResourceManagerStat : Type := {
  System : network.ScopeStat;
  Transient : network.ScopeStat;
  Services : gmap string network.ScopeStat;
  Protocols : gmap protocol.ID network.ScopeStat;
  Peers : gmap peer.ID network.ScopeStat
}.

(** The limiter a manager is created from: the limit a scope starts with. *)
Record Limiter : Type := {
  GetSystemLimits : Limit;
  GetTransientLimits : Limit;
  GetServiceLimits : string -> Limit;
  GetProtocolLimits : protocol.ID -> Limit;
  GetPeerLimits : peer.ID -> Limit
}.

(** The manager: the two fixed scopes and the scopes created so far. *)
Record resourceManager : Type := {
  limits : Limiter;
  system : resourceScope;
  transient : resourceScope;
  svc : gmap string resourceScope;
  proto : gmap protocol.ID resourceScope;
  peer : gmap peer.ID resourceScope
}.

Definition newScope (l : Limit) : resourceScope :=
  {| stat := network.zero; limit := l |}.

(** [NewResourceManager]: only the two fixed scopes exist at first. *)
Definition newResourceManager (l : Limiter) : resourceManager :=
  {| limits := l;
     system := newScope (GetSystemLimits l);
     transient := newScope (GetTransientLimits l);
     svc := ∅; proto := ∅; peer := ∅ |}.

(** [getServiceScope], [getProtocolScope], [getPeerScope]: look the scope
    up and create it with the limiter's limit when it is not there yet. *)
Definition getServiceScope (r : resourceManager) (name : string)
  : resourceManager * resourceScope :=
  match svc r !! name with
  | Some s => (r, s)
  | None =>
      let s := newScope (GetServiceLimits (limits r) name) in
      ({| limits := limits r; system := system r; transient := transient r;
          svc := <[name := s]> (svc r); proto := proto r; peer := peer r |}, s)
  end.

Definition getProtocolScope (r : resourceManager) (p : protocol.ID)
  : resourceManager * resourceScope :=
  match proto r !! p with
  | Some s => (r, s)
  | None =>
      let s := newScope (GetProtocolLimits (limits r) p) in
      ({| limits := limits r; system := system r; transient := transient r;
          svc := svc r; proto := <[p := s]> (proto r); peer := peer r |}, s)
  end.

Definition getPeerScope (r : resourceManager) (p : peer.ID)
  : resourceManager * resourceScope :=
  match peer r !! p with
  | Some s => (r, s)
  | None =>
      let s := newScope (GetPeerLimits (limits r) p) in
      ({| limits := limits r; system := system r; transient := transient r;
          svc := svc r; proto := proto r; peer := <[p := s]> (peer r) |}, s)
  end.

(** The scope a callback has written to is the one the manager holds. *)
Definition putSystem (r : resourceManager) (s : resourceScope) : resourceManager :=
  {| limits := limits r; system := s; transient := transient r;
     svc := svc r; proto := proto r; peer := peer r |}.

Definition putTransient (r : resourceManager) (s : resourceScope) : resourceManager :=
  {| limits := limits r; system := system r; transient := s;
     svc := svc r; proto := proto r; peer := peer r |}.

Definition putService (r : resourceManager) (name : string) (s : resourceScope)
  : resourceManager :=
  {| limits := limits r; system := system r; transient := transient r;
     svc := <[name := s]> (svc r); proto := proto r; peer := peer r |}.

Definition putProtocol (r : resourceManager) (p : protocol.ID) (s : resourceScope)
  : resourceManager :=
  {| limits := limits r; system := system r; transient := transient r;
     svc := svc r; proto := <[p := s]> (proto r); peer := peer r |}.

Definition putPeer (r : resourceManager) (p : peer.ID) (s : resourceScope)
  : resourceManager :=
  {| limits := limits r; system := system r; transient := transient r;
     svc := svc r; proto := proto r; peer := <[p := s]> (peer r) |}.

(** The manager's [Stat] method: a snapshot of every scope that exists. *)
Definition Stat (r : resourceManager) : ResourceManagerStat :=
  {| System := stat (system r);
     Transient := stat (transient r);
     Services := stat <$> svc r;
     Protocols := stat <$> proto r;
     Peers := stat <$> peer r |}.

End rcmgr.

(** ** go-libp2p-core's [network/rcmgr.go]: the interfaces *)

Module network_rcmgr.

(** A [network.ResourceScope] value, as a callback of a view receives it:
    the [nullScope] of the null manager, or a scope of the real manager.
    The same sum stands for [ServiceScope], [ProtocolScope] and [PeerScope],
    of which rcmgr.go uses the [ResourceScope] methods only. *)
Inductive ResourceScope : Type :=
| nullScope
| limiterScope (s : rcmgr.resourceScope).

(** [s.Stat()]; the null scope reports the zero [ScopeStat]. *)
Definition Stat (s : ResourceScope) : network.ScopeStat :=
  match s with
  | nullScope => network.zero
  | limiterScope s' => rcmgr.stat s'
  end.

(** The type assertion [s.(rcmgr.ResourceScopeLimiter)]: [nullScope] has
    neither [Limit] nor [SetLimit]. *)
Definition ResourceScopeLimiter (s : ResourceScope) : option rcmgr.resourceScope :=
  match s with
  | nullScope => None
  | limiterScope s' => Some s'
  end.

(** A [func(network.ResourceScope) error] closure over a variable of type
    [R]: it may write to the scope and to the variable. *)
Definition callback (R : Type) : Type :=
  ResourceScope -> R -> ResourceScope * R * option error.

(** The [network.ResourceManager] interface, restricted to the methods
    rcmgr.go calls, and the type assertion to [rcmgr.ResourceManagerState]
    followed by its [Stat] ([None] when the assertion fails). *)
Class ResourceManager (M : Type) : Type := {
  ViewSystem : forall R : Type, M -> callback R -> R -> M * R * option error;
  ViewTransient : forall R : Type, M -> callback R -> R -> M * R * option error;
  ViewService :
    forall R : Type, M -> string -> callback R -> R -> M * R * option error;
  ViewProtocol :
    forall R : Type, M -> protocol.ID -> callback R -> R -> M * R * option error;
  ViewPeer :
    forall R : Type, M -> peer.ID -> callback R -> R -> M * R * option error;
  ResourceManagerState : M -> option rcmgr.ResourceManagerStat
}.

Arguments ViewSystem {M _ R} _ _ _.
Arguments ViewTransient {M _ R} _ _ _.
Arguments ViewService {M _ R} _ _ _ _.
Arguments ViewProtocol {M _ R} _ _ _ _.
Arguments ViewPeer {M _ R} _ _ _ _.
Arguments ResourceManagerState {M _} _.

(** *** [network.NullResourceManager] *)

Inductive nullResourceManager : Type := NullResourceManager.

(** Every view of the null manager is [return f(nullScopeObj)]. *)
Definition nullView {R : Type} (m : nullResourceManager) (f : callback R) (r : R)
  : nullResourceManager * R * option error :=
  let '(_, r', err) := f nullScope r in (m, r', err).

#[export] Instance nullResourceManager_impl : ResourceManager nullResourceManager := {|
  ViewSystem R m f r := nullView m f r;
  ViewTransient R m f r := nullView m f r;
  ViewService R m _ f r := nullView m f r;
  ViewProtocol R m _ f r := nullView m f r;
  ViewPeer R m _ f r := nullView m f r;
  ResourceManagerState _ := None
|}.

(** *** The manager of go-libp2p-resource-manager *)

(** [f(s)] on a scope the manager holds by reference. *)
Definition scopeView {R : Type} (s : rcmgr.resourceScope) (f : callback R) (r : R)
  : rcmgr.resourceScope * R * option error :=
  let '(s', r', err) := f (limiterScope s) r in
  (match s' with limiterScope s'' => s'' | nullScope => s end, r', err).

#[export] Instance resourceManager_impl : ResourceManager rcmgr.resourceManager := {|
  ViewSystem R m f r :=
    let '(s', r', err) := scopeView (rcmgr.system m) f r in
    (rcmgr.putSystem m s', r', err);
  ViewTransient R m f r :=
    let '(s', r', err) := scopeView (rcmgr.transient m) f r in
    (rcmgr.putTransient m s', r', err);
  ViewService R m name f r :=
    let '(m1, s) := rcmgr.getServiceScope m name in
    let '(s', r', err) := scopeView s f r in
    (rcmgr.putService m1 name s', r', err);
  ViewProtocol R m p f r :=
    let '(m1, s) := rcmgr.getProtocolScope m p in
    let '(s', r', err) := scopeView s f r in
    (rcmgr.putProtocol m1 p s', r', err);
  ViewPeer R m p f r :=
    let '(m1, s) := rcmgr.getPeerScope m p in
    let '(s', r', err) := scopeView s f r in
    (rcmgr.putPeer m1 p s', r', err);
  ResourceManagerState m := Some (rcmgr.Stat m)
|}.

End network_rcmgr.

Import network_rcmgr.

(** ** [unicode/utf8]

    [utf8.ValidString] of the Go standard library: whether a string, a
    sequence of bytes, consists of well-formed UTF-8 sequences only (no
    overlong form, no surrogate half, nothing above U+10FFFF, no truncated
    sequence). *)

Module utf8.

Definition between (lo hi : N) (c : ascii) : bool :=
  (lo <=? N_of_ascii c)%N && (N_of_ascii c <=? hi)%N.

(** A continuation byte, [locb] to [hicb]. *)
Definition continuation (c : ascii) : bool := between 0x80 0xBF c.

Fixpoint ValidString (s : string) : bool :=
  match s with
  | EmptyString => true
  | String c0 s1 =>
      if between 0x00 0x7F c0 then ValidString s1
      else
        match s1 with
        | EmptyString => false
        | String c1 s2 =>
            if between 0xC2 0xDF c0 then continuation c1 && ValidString s2
            else
              match s2 with
              | EmptyString => false
              | String c2 s3 =>
                  if between 0xE0 0xEF c0 then
                    ((between 0xE0 0xE0 c0 && between 0xA0 0xBF c1)
                     || (between 0xE1 0xEC c0 && between 0x80 0xBF c1)
                     || (between 0xED 0xED c0 && between 0x80 0x9F c1)
                     || (between 0xEE 0xEF c0 && between 0x80 0xBF c1))
                    && continuation c2 && ValidString s3
                  else
                    match s3 with
                    | EmptyString => false
                    | String c3 s4 =>
                        ((between 0xF0 0xF0 c0 && between 0x90 0xBF c1)
                         || (between 0xF1 0xF3 c0 && between 0x80 0xBF c1)
                         || (between 0xF4 0xF4 c0 && between 0x80 0x8F c1))
                        && continuation c2 && continuation c3 && ValidString s4
                    end
              end
        end
  end.

End utf8.

(** ** The part of the Prometheus client the reporter uses

    The client library is not among the sources; its collectors are
    modelled by what the reporter can observe of them: names, counts, and
    the two calls that panic. *)

Module prometheus.

(** A counter: its name and how often [Inc] was called on it. *)
Record Counter : Type := {
  counterName : string;
  count : nat
}.

Definition NewCounter (Name : string) : Counter :=
  {| counterName := Name; count := 0 |}.

Definition Inc (c : Counter) : Counter :=
  {| counterName := counterName c; count := S (count c) |}.

(** A vector of counters: its name, the names of its labels, and one count
    for each list of label values it has been asked for. *)
Record CounterVec : Type := {
  vecName : string;
  labelNames : list string;
  children : gmap (list string) nat
}.

Definition NewCounterVec (Name : string) (labelNames : list string) : CounterVec :=
  {| vecName := Name; labelNames := labelNames; children := ∅ |}.

(** The count of a list of label values; a child that was never asked for
    counts zero. *)
Definition value (cv : CounterVec) (lvs : list string) : nat :=
  default 0%nat (children cv !! lvs).

(** The library's [validateLabelValues]: as many values as the vector has
    label names, each of them valid UTF-8. *)
Definition validateLabelValues (vals : list string) (expectedNumberOfValues : nat)
  : bool :=
  Nat.eqb (List.length vals) expectedNumberOfValues
  && forallb utf8.ValidString vals.

(** [cv.WithLabelValues(lvs...).Inc()]; [WithLabelValues] panics ([None])
    when [validateLabelValues] refuses the values. *)
Definition IncWithLabelValues (cv : CounterVec) (lvs : list string) : option CounterVec :=
  if validateLabelValues lvs (List.length (labelNames cv))
  then Some {| vecName := vecName cv; labelNames := labelNames cv;
               children := <[lvs := S (value cv lvs)]> (children cv) |}
  else None.

(** The default registry: the names of the collectors registered so far. *)
Definition Registry : Type := gset string.

(** [prometheus.MustRegister] of one collector; it panics ([None]) when a
    collector of that name is registered already. *)
Definition MustRegister (reg : Registry) (Name : string) : option Registry :=
  if decide (Name ∈ reg) then None else Some ({[ Name ]} ∪ reg).

End prometheus.

(** ** [core/node/libp2p/rcmgr.go] *)

Definition NetLimitDefaultFilename : string := "limit.json".
Definition NetLimitTraceFilename : string := "rcmgr.json.gz".

Record NetStatOut : Type := {
  System : option network.ScopeStat;
  Transient : option network.ScopeStat;
  Services : option (gmap string network.ScopeStat);
  Protocols : option (gmap string network.ScopeStat);
  Peers : option (gmap string network.ScopeStat)
}.

(** [var result NetStatOut]: every pointer and every map is [nil]. *)
Definition NetStatOut_zero : NetStatOut :=
  {| System := None; Transient := None;
     Services := None; Protocols := None; Peers := None |}.

(** The assignments [result.F = v]. *)
Definition set_System (r : NetStatOut) (v : option network.ScopeStat) : NetStatOut :=
  {| System := v; Transient := Transient r;
     Services := Services r; Protocols := Protocols r; Peers := Peers r |}.

Definition set_Transient (r : NetStatOut) (v : option network.ScopeStat) : NetStatOut :=
  {| System := System r; Transient := v;
     Services := Services r; Protocols := Protocols r; Peers := Peers r |}.

Definition set_Services (r : NetStatOut) (v : option (gmap string network.ScopeStat))
  : NetStatOut :=
  {| System := System r; Transient := Transient r;
     Services := v; Protocols := Protocols r; Peers := Peers r |}.

Definition set_Protocols (r : NetStatOut) (v : option (gmap string network.ScopeStat))
  : NetStatOut :=
  {| System := System r; Transient := Transient r;
     Services := Services r; Protocols := v; Peers := Peers r |}.

Definition set_Peers (r : NetStatOut) (v : option (gmap string network.ScopeStat))
  : NetStatOut :=
  {| System := System r; Transient := Transient r;
     Services := Services r; Protocols := Protocols r; Peers := v |}.

(** [len(m) > 0] *)
Definition nonempty {K : Type} `{Countable K} {V : Type} (m : gmap K V) : bool :=
  (0 <? size m)%nat.

(** The loop [for k, stat := range m { out[key(k)] = stat }] into a fresh map. *)
Definition rekey {K : Type} `{Countable K} {V : Type}
  (key : K -> string) (m : gmap K V) : gmap string V :=
  map_fold (fun k stat out => <[key k := stat]> out) ∅ m.

(** [strconv.FormatBool] *)
Definition FormatBool (b : bool) : string := if b then "true" else "false".

(** ** [rcmgrMetrics] and [createRcmgrMetrics] *)

Record rcmgrMetrics : Type := {
  connAllowed : prometheus.CounterVec;
  connBlocked : prometheus.CounterVec;
  streamAllowed : prometheus.CounterVec;
  streamBlocked : prometheus.CounterVec;
  peerAllowed : prometheus.Counter;
  peerBlocked : prometheus.Counter;
  protocolAllowed : prometheus.CounterVec;
  protocolBlocked : prometheus.CounterVec;
  protocolPeerBlocked : prometheus.CounterVec;
  serviceAllowed : prometheus.CounterVec;
  serviceBlocked : prometheus.CounterVec;
  servicePeerBlocked : prometheus.CounterVec;
  memoryAllowed : prometheus.Counter;
  memoryBlocked : prometheus.Counter
}.

(** The assignments to one counter of the reporter: the Go struct holds
    references, so an increment is seen through every copy of it. *)
Definition set_connAllowed (r : rcmgrMetrics) (v : prometheus.CounterVec) : rcmgrMetrics :=
  {| connAllowed := v;
     connBlocked := connBlocked r;
     streamAllowed := streamAllowed r;
     streamBlocked := streamBlocked r;
     peerAllowed := peerAllowed r;
     peerBlocked := peerBlocked r;
     protocolAllowed := protocolAllowed r;
     protocolBlocked := protocolBlocked r;
     protocolPeerBlocked := protocolPeerBlocked r;
     serviceAllowed := serviceAllowed r;
     serviceBlocked := serviceBlocked r;
     servicePeerBlocked := servicePeerBlocked r;
     memoryAllowed := memoryAllowed r;
     memoryBlocked := memoryBlocked r |}.

Definition set_connBlocked (r : rcmgrMetrics) (v : prometheus.CounterVec) : rcmgrMetrics :=
  {| connAllowed := connAllowed r;
     connBlocked := v;
     streamAllowed := streamAllowed r;
     streamBlocked := streamBlocked r;
     peerAllowed := peerAllowed r;
     peerBlocked := peerBlocked r;
     protocolAllowed := protocolAllowed r;
     protocolBlocked := protocolBlocked r;
     protocolPeerBlocked := protocolPeerBlocked r;
     serviceAllowed := serviceAllowed r;
     serviceBlocked := serviceBlocked r;
     servicePeerBlocked := servicePeerBlocked r;
     memoryAllowed := memoryAllowed r;
     memoryBlocked := memoryBlocked r |}.

Definition set_streamAllowed (r : rcmgrMetrics) (v : prometheus.CounterVec) : rcmgrMetrics :=
  {| connAllowed := connAllowed r;
     connBlocked := connBlocked r;
     streamAllowed := v;
     streamBlocked := streamBlocked r;
     peerAllowed := peerAllowed r;
     peerBlocked := peerBlocked r;
     protocolAllowed := protocolAllowed r;
     protocolBlocked := protocolBlocked r;
     protocolPeerBlocked := protocolPeerBlocked r;
     serviceAllowed := serviceAllowed r;
     serviceBlocked := serviceBlocked r;
     servicePeerBlocked := servicePeerBlocked r;
     memoryAllowed := memoryAllowed r;
     memoryBlocked := memoryBlocked r |}.

Definition set_streamBlocked (r : rcmgrMetrics) (v : prometheus.CounterVec) : rcmgrMetrics :=
  {| connAllowed := connAllowed r;
     connBlocked := connBlocked r;
     streamAllowed := streamAllowed r;
     streamBlocked := v;
     peerAllowed := peerAllowed r;
     peerBlocked := peerBlocked r;
     protocolAllowed := protocolAllowed r;
     protocolBlocked := protocolBlocked r;
     protocolPeerBlocked := protocolPeerBlocked r;
     serviceAllowed := serviceAllowed r;
     serviceBlocked := serviceBlocked r;
     servicePeerBlocked := servicePeerBlocked r;
     memoryAllowed := memoryAllowed r;
     memoryBlocked := memoryBlocked r |}.

Definition set_peerAllowed (r : rcmgrMetrics) (v : prometheus.Counter) : rcmgrMetrics :=
  {| connAllowed := connAllowed r;
     connBlocked := connBlocked r;
     streamAllowed := streamAllowed r;
     streamBlocked := streamBlocked r;
     peerAllowed := v;
     peerBlocked := peerBlocked r;
     protocolAllowed := protocolAllowed r;
     protocolBlocked := protocolBlocked r;
     protocolPeerBlocked := protocolPeerBlocked r;
     serviceAllowed := serviceAllowed r;
     serviceBlocked := serviceBlocked r;
     servicePeerBlocked := servicePeerBlocked r;
     memoryAllowed := memoryAllowed r;
     memoryBlocked := memoryBlocked r |}.

Definition set_peerBlocked (r : rcmgrMetrics) (v : prometheus.Counter) : rcmgrMetrics :=
  {| connAllowed := connAllowed r;
     connBlocked := connBlocked r;
     streamAllowed := streamAllowed r;
     streamBlocked := streamBlocked r;
     peerAllowed := peerAllowed r;
     peerBlocked := v;
     protocolAllowed := protocolAllowed r;
     protocolBlocked := protocolBlocked r;
     protocolPeerBlocked := protocolPeerBlocked r;
     serviceAllowed := serviceAllowed r;
     serviceBlocked := serviceBlocked r;
     servicePeerBlocked := servicePeerBlocked r;
     memoryAllowed := memoryAllowed r;
     memoryBlocked := memoryBlocked r |}.

Definition set_protocolAllowed (r : rcmgrMetrics) (v : prometheus.CounterVec) : rcmgrMetrics :=
  {| connAllowed := connAllowed r;
     connBlocked := connBlocked r;
     streamAllowed := streamAllowed r;
     streamBlocked := streamBlocked r;
     peerAllowed := peerAllowed r;
     peerBlocked := peerBlocked r;
     protocolAllowed := v;
     protocolBlocked := protocolBlocked r;
     protocolPeerBlocked := protocolPeerBlocked r;
     serviceAllowed := serviceAllowed r;
     serviceBlocked := serviceBlocked r;
     servicePeerBlocked := servicePeerBlocked r;
     memoryAllowed := memoryAllowed r;
     memoryBlocked := memoryBlocked r |}.

Definition set_protocolBlocked (r : rcmgrMetrics) (v : prometheus.CounterVec) : rcmgrMetrics :=
  {| connAllowed := connAllowed r;
     connBlocked := connBlocked r;
     streamAllowed := streamAllowed r;
     streamBlocked := streamBlocked r;
     peerAllowed := peerAllowed r;
     peerBlocked := peerBlocked r;
     protocolAllowed := protocolAllowed r;
     protocolBlocked := v;
     protocolPeerBlocked := protocolPeerBlocked r;
     serviceAllowed := serviceAllowed r;
     serviceBlocked := serviceBlocked r;
     servicePeerBlocked := servicePeerBlocked r;
     memoryAllowed := memoryAllowed r;
     memoryBlocked := memoryBlocked r |}.

Definition set_protocolPeerBlocked (r : rcmgrMetrics) (v : prometheus.CounterVec) : rcmgrMetrics :=
  {| connAllowed := connAllowed r;
     connBlocked := connBlocked r;
     streamAllowed := streamAllowed r;
     streamBlocked := streamBlocked r;
     peerAllowed := peerAllowed r;
     peerBlocked := peerBlocked r;
     protocolAllowed := protocolAllowed r;
     protocolBlocked := protocolBlocked r;
     protocolPeerBlocked := v;
     serviceAllowed := serviceAllowed r;
     serviceBlocked := serviceBlocked r;
     servicePeerBlocked := servicePeerBlocked r;
     memoryAllowed := memoryAllowed r;
     memoryBlocked := memoryBlocked r |}.

Definition set_serviceAllowed (r : rcmgrMetrics) (v : prometheus.CounterVec) : rcmgrMetrics :=
  {| connAllowed := connAllowed r;
     connBlocked := connBlocked r;
     streamAllowed := streamAllowed r;
     streamBlocked := streamBlocked r;
     peerAllowed := peerAllowed r;
     peerBlocked := peerBlocked r;
     protocolAllowed := protocolAllowed r;
     protocolBlocked := protocolBlocked r;
     protocolPeerBlocked := protocolPeerBlocked r;
     serviceAllowed := v;
     serviceBlocked := serviceBlocked r;
     servicePeerBlocked := servicePeerBlocked r;
     memoryAllowed := memoryAllowed r;
     memoryBlocked := memoryBlocked r |}.

Definition set_serviceBlocked (r : rcmgrMetrics) (v : prometheus.CounterVec) : rcmgrMetrics :=
  {| connAllowed := connAllowed r;
     connBlocked := connBlocked r;
     streamAllowed := streamAllowed r;
     streamBlocked := streamBlocked r;
     peerAllowed := peerAllowed r;
     peerBlocked := peerBlocked r;
     protocolAllowed := protocolAllowed r;
     protocolBlocked := protocolBlocked r;
     protocolPeerBlocked := protocolPeerBlocked r;
     serviceAllowed := serviceAllowed r;
     serviceBlocked := v;
     servicePeerBlocked := servicePeerBlocked r;
     memoryAllowed := memoryAllowed r;
     memoryBlocked := memoryBlocked r |}.

Definition set_servicePeerBlocked (r : rcmgrMetrics) (v : prometheus.CounterVec) : rcmgrMetrics :=
  {| connAllowed := connAllowed r;
     connBlocked := connBlocked r;
     streamAllowed := streamAllowed r;
     streamBlocked := streamBlocked r;
     peerAllowed := peerAllowed r;
     peerBlocked := peerBlocked r;
     protocolAllowed := protocolAllowed r;
     protocolBlocked := protocolBlocked r;
     protocolPeerBlocked := protocolPeerBlocked r;
     serviceAllowed := serviceAllowed r;
     serviceBlocked := serviceBlocked r;
     servicePeerBlocked := v;
     memoryAllowed := memoryAllowed r;
     memoryBlocked := memoryBlocked r |}.

Definition set_memoryAllowed (r : rcmgrMetrics) (v : prometheus.Counter) : rcmgrMetrics :=
  {| connAllowed := connAllowed r;
     connBlocked := connBlocked r;
     streamAllowed := streamAllowed r;
     streamBlocked := streamBlocked r;
     peerAllowed := peerAllowed r;
     peerBlocked := peerBlocked r;
     protocolAllowed := protocolAllowed r;
     protocolBlocked := protocolBlocked r;
     protocolPeerBlocked := protocolPeerBlocked r;
     serviceAllowed := serviceAllowed r;
     serviceBlocked := serviceBlocked r;
     servicePeerBlocked := servicePeerBlocked r;
     memoryAllowed := v;
     memoryBlocked := memoryBlocked r |}.

Definition set_memoryBlocked (r : rcmgrMetrics) (v : prometheus.Counter) : rcmgrMetrics :=
  {| connAllowed := connAllowed r;
     connBlocked := connBlocked r;
     streamAllowed := streamAllowed r;
     streamBlocked := streamBlocked r;
     peerAllowed := peerAllowed r;
     peerBlocked := peerBlocked r;
     protocolAllowed := protocolAllowed r;
     protocolBlocked := protocolBlocked r;
     protocolPeerBlocked := protocolPeerBlocked r;
     serviceAllowed := serviceAllowed r;
     serviceBlocked := serviceBlocked r;
     servicePeerBlocked := servicePeerBlocked r;
     memoryAllowed := memoryAllowed r;
     memoryBlocked := v |}.

(** The reporter and the registry after the fourteen registrations, or
    [None] when one of them panics. *)
Definition createRcmgrMetrics (reg : prometheus.Registry)
  : option (prometheus.Registry * rcmgrMetrics) :=
  let direction := "direction" in
  let usesFD := "usesFD" in
  let protocol := "protocol" in
  let service := "service" in
  let connAllowed := prometheus.NewCounterVec "libp2p_rcmgr_conns_allowed_total" (direction :: usesFD :: nil) in
  reg ← prometheus.MustRegister reg (prometheus.vecName connAllowed);
  let connBlocked := prometheus.NewCounterVec "libp2p_rcmgr_conns_blocked_total" (direction :: usesFD :: nil) in
  reg ← prometheus.MustRegister reg (prometheus.vecName connBlocked);
  let streamAllowed := prometheus.NewCounterVec "libp2p_rcmgr_streams_allowed_total" (direction :: nil) in
  reg ← prometheus.MustRegister reg (prometheus.vecName streamAllowed);
  let streamBlocked := prometheus.NewCounterVec "libp2p_rcmgr_streams_blocked_total" (direction :: nil) in
  reg ← prometheus.MustRegister reg (prometheus.vecName streamBlocked);
  let peerAllowed := prometheus.NewCounter "libp2p_rcmgr_peers_allowed_total" in
  reg ← prometheus.MustRegister reg (prometheus.counterName peerAllowed);
  let peerBlocked := prometheus.NewCounter "libp2p_rcmgr_peer_blocked_total" in
  reg ← prometheus.MustRegister reg (prometheus.counterName peerBlocked);
  let protocolAllowed := prometheus.NewCounterVec "libp2p_rcmgr_protocols_allowed_total" (protocol :: nil) in
  reg ← prometheus.MustRegister reg (prometheus.vecName protocolAllowed);
  let protocolBlocked := prometheus.NewCounterVec "libp2p_rcmgr_protocols_blocked_total" (protocol :: nil) in
  reg ← prometheus.MustRegister reg (prometheus.vecName protocolBlocked);
  let protocolPeerBlocked := prometheus.NewCounterVec "libp2p_rcmgr_protocols_for_peer_blocked_total" (protocol :: nil) in
  reg ← prometheus.MustRegister reg (prometheus.vecName protocolPeerBlocked);
  let serviceAllowed := prometheus.NewCounterVec "libp2p_rcmgr_services_allowed_total" (service :: nil) in
  reg ← prometheus.MustRegister reg (prometheus.vecName serviceAllowed);
  let serviceBlocked := prometheus.NewCounterVec "libp2p_rcmgr_services_blocked_total" (service :: nil) in
  reg ← prometheus.MustRegister reg (prometheus.vecName serviceBlocked);
  let servicePeerBlocked := prometheus.NewCounterVec "libp2p_rcmgr_service_for_peer_blocked_total" (service :: nil) in
  reg ← prometheus.MustRegister reg (prometheus.vecName servicePeerBlocked);
  let memoryAllowed := prometheus.NewCounter "libp2p_rcmgr_memory_allocations_allowed_total" in
  reg ← prometheus.MustRegister reg (prometheus.counterName memoryAllowed);
  let memoryBlocked := prometheus.NewCounter "libp2p_rcmgr_memory_allocations_blocked_total" in
  reg ← prometheus.MustRegister reg (prometheus.counterName memoryBlocked);
  Some (reg,
        {| connAllowed := connAllowed;
           connBlocked := connBlocked;
           streamAllowed := streamAllowed;
           streamBlocked := streamBlocked;
           peerAllowed := peerAllowed;
           peerBlocked := peerBlocked;
           protocolAllowed := protocolAllowed;
           protocolBlocked := protocolBlocked;
           protocolPeerBlocked := protocolPeerBlocked;
           serviceAllowed := serviceAllowed;
           serviceBlocked := serviceBlocked;
           servicePeerBlocked := servicePeerBlocked;
           memoryAllowed := memoryAllowed;
           memoryBlocked := memoryBlocked |}).

Section libp2p.

(** [peer.Decode] and [peer.ID.Pretty] of go-libp2p-core: the textual form
    of a peer identifier.  Both are taken as given. *)
Variable peer_Decode : string -> peer.ID + error.
Variable peer_Pretty : peer.ID -> string.

Section Manager.

Context {M : Type} `{!ResourceManager M}.

Definition NetStat (mgr : M) (scope : string) : M * NetStatOut * option error :=
  let result := NetStatOut_zero in
  if String.eqb scope "all" then
    match ResourceManagerState mgr with
    | None => (* NullResourceManager *)
        (mgr, result, Some NoResourceMgrError)
    | Some stat =>
        let result := set_System result (Some (rcmgr.System stat)) in
        let result := set_Transient result (Some (rcmgr.Transient stat)) in
        let result :=
          if nonempty (rcmgr.Services stat)
          then set_Services result (Some (rcmgr.Services stat))
          else result in
        let result :=
          if nonempty (rcmgr.Protocols stat)
          then set_Protocols result
                 (Some (rekey (fun proto : protocol.ID => proto) (rcmgr.Protocols stat)))
          else result in
        let result :=
          if nonempty (rcmgr.Peers stat)
          then set_Peers result (Some (rekey peer_Pretty (rcmgr.Peers stat)))
          else result in
        (mgr, result, None)
    end
  else if String.eqb scope config.ResourceMgrSystemScope then
    ViewSystem mgr
      (fun s result =>
         let stat := Stat s in
         (s, set_System result (Some stat), None))
      result
  else if String.eqb scope config.ResourceMgrTransientScope then
    ViewTransient mgr
      (fun s result =>
         let stat := Stat s in
         (s, set_Transient result (Some stat), None))
      result
  else if String.prefix config.ResourceMgrServiceScopePrefix scope then
    let svc := slice_from 4 scope in
    ViewService mgr svc
      (fun s result =>
         let stat := Stat s in
         (s, set_Services result (Some {[ svc := stat ]}), None))
      result
  else if String.prefix config.ResourceMgrProtocolScopePrefix scope then
    let proto := slice_from 6 scope in
    ViewProtocol mgr proto
      (fun s result =>
         let stat := Stat s in
         (s, set_Protocols result (Some {[ proto := stat ]}), None))
      result
  else if String.prefix config.ResourceMgrPeerScopePrefix scope then
    let p := slice_from 5 scope in
    match peer_Decode p with
    | inr err => (mgr, result, Some (Errorf_invalid_peer_ID p err))
    | inl pid =>
        ViewPeer mgr pid
          (fun s result =>
             let stat := Stat s in
             (s, set_Peers result (Some {[ p := stat ]}), None))
          result
    end
  else
    (mgr, result, Some (Errorf_invalid_scope scope)).

(** The closure [getLimit] of [NetLimit], over its [result]. *)
Definition getLimit : callback config.ResourceMgrScopeConfig :=
  fun s result =>
    match ResourceScopeLimiter s with
    | None => (* NullResourceManager *)
        (s, result, Some NoResourceMgrError)
    | Some limiter =>
        match rcmgr.limit limiter with
        | rcmgr.StaticLimit Memory BaseLimit =>
            (s,
             {| config.Dynamic := false;
                config.Memory := Memory;
                config.MemoryFraction := config.MemoryFraction result;
                config.MinMemory := config.MinMemory result;
                config.MaxMemory := config.MaxMemory result;
                config.Streams := rcmgr.Streams BaseLimit;
                config.StreamsInbound := rcmgr.StreamsInbound BaseLimit;
                config.StreamsOutbound := rcmgr.StreamsOutbound BaseLimit;
                config.Conns := rcmgr.Conns BaseLimit;
                config.ConnsInbound := rcmgr.ConnsInbound BaseLimit;
                config.ConnsOutbound := rcmgr.ConnsOutbound BaseLimit;
                config.FD := rcmgr.FD BaseLimit |},
             None)
        | rcmgr.DynamicLimit MemoryLimit BaseLimit =>
            (s,
             {| config.Dynamic := true;
                config.Memory := config.Memory result;
                config.MemoryFraction := rcmgr.MemoryFraction MemoryLimit;
                config.MinMemory := rcmgr.MinMemory MemoryLimit;
                config.MaxMemory := rcmgr.MaxMemory MemoryLimit;
                config.Streams := rcmgr.Streams BaseLimit;
                config.StreamsInbound := rcmgr.StreamsInbound BaseLimit;
                config.StreamsOutbound := rcmgr.StreamsOutbound BaseLimit;
                config.Conns := rcmgr.Conns BaseLimit;
                config.ConnsInbound := rcmgr.ConnsInbound BaseLimit;
                config.ConnsOutbound := rcmgr.ConnsOutbound BaseLimit;
                config.FD := rcmgr.FD BaseLimit |},
             None)
        | rcmgr.otherLimit T =>
            (s, result, Some (Errorf_unknown_limit_type T))
        end
    end.

Definition NetLimit (mgr : M) (scope : string)
  : M * config.ResourceMgrScopeConfig * option error :=
  let result := config.zero in
  if String.eqb scope config.ResourceMgrSystemScope then
    ViewSystem mgr getLimit result
  else if String.eqb scope config.ResourceMgrTransientScope then
    ViewTransient mgr getLimit result
  else if String.prefix config.ResourceMgrServiceScopePrefix scope then
    let svc := slice_from 4 scope in
    ViewService mgr svc getLimit result
  else if String.prefix config.ResourceMgrProtocolScopePrefix scope then
    let proto := slice_from 6 scope in
    ViewProtocol mgr proto getLimit result
  else if String.prefix config.ResourceMgrPeerScopePrefix scope then
    let p := slice_from 5 scope in
    match peer_Decode p with
    | inr err => (mgr, result, Some (Errorf_invalid_peer_ID p err))
    | inl pid => ViewPeer mgr pid getLimit result
    end
  else
    (mgr, result, Some (Errorf_invalid_scope scope)).

(** The limit [setLimit] builds from the configuration it closes over. *)
Definition newLimit (limit : config.ResourceMgrScopeConfig) : rcmgr.Limit :=
  let base :=
    {| rcmgr.Streams := config.Streams limit;
       rcmgr.StreamsInbound := config.StreamsInbound limit;
       rcmgr.StreamsOutbound := config.StreamsOutbound limit;
       rcmgr.Conns := config.Conns limit;
       rcmgr.ConnsInbound := config.ConnsInbound limit;
       rcmgr.ConnsOutbound := config.ConnsOutbound limit;
       rcmgr.FD := config.FD limit |} in
  if config.Dynamic limit then
    rcmgr.DynamicLimit
      {| rcmgr.MemoryFraction := config.MemoryFraction limit;
         rcmgr.MinMemory := config.MinMemory limit;
         rcmgr.MaxMemory := config.MaxMemory limit |}
      base
  else
    rcmgr.StaticLimit (config.Memory limit) base.

(** The closure [setLimit] of [NetSetLimit]; it captures nothing it writes. *)
Definition setLimit (limit : config.ResourceMgrScopeConfig) : callback unit :=
  fun s u =>
    match ResourceScopeLimiter s with
    | None => (* NullResourceManager *)
        (s, u, Some NoResourceMgrError)
    | Some limiter =>
        (limiterScope (rcmgr.SetLimit limiter (newLimit limit)), u, None)
    end.

(** The manager after the call and the error returned. *)
Definition NetSetLimit (mgr : M) (scope : string) (limit : config.ResourceMgrScopeConfig)
  : M * option error :=
  let run (v : M * unit * option error) : M * option error := (v.1.1, v.2) in
  if String.eqb scope config.ResourceMgrSystemScope then
    run (ViewSystem mgr (setLimit limit) tt)
  else if String.eqb scope config.ResourceMgrTransientScope then
    run (ViewTransient mgr (setLimit limit) tt)
  else if String.prefix config.ResourceMgrServiceScopePrefix scope then
    let svc := slice_from 4 scope in
    run (ViewService mgr svc (setLimit limit) tt)
  else if String.prefix config.ResourceMgrProtocolScopePrefix scope then
    let proto := slice_from 6 scope in
    run (ViewProtocol mgr proto (setLimit limit) tt)
  else if String.prefix config.ResourceMgrPeerScopePrefix scope then
    let p := slice_from 5 scope in
    match peer_Decode p with
    | inr err => (mgr, Some (Errorf_invalid_peer_ID p err))
    | inl pid => run (ViewPeer mgr pid (setLimit limit) tt)
    end
  else
    (mgr, Some (Errorf_invalid_scope scope)).

End Manager.

(** *** The constructor *)

(** What [os.Stat] and [os.Open] find at the path of the limit file, and
    what [rcmgr.NewDefaultLimiterFromJSON] makes of its contents. *)
Inductive limitFileState : Type :=
| fileNotExist
| fileOpenFails (err : error)
| fileOpens (parsed : rcmgr.Limiter + error).

(** [rcmgr.Option] *)
Inductive rcmgrOption : Type :=
| WithMetrics (reporter : rcmgrMetrics)
| WithTrace (traceFilePath : string).

(** The surroundings the constructor reads: the process environment, the
    repository path, the file system and the library constructors. *)
Record Env : Type := {
  Getenv : string -> string;
  PathRoot : string + error;
  Join : string -> string -> string;
  limitFile : string -> limitFileState;
  NewDefaultLimiter : rcmgr.Limiter;
  SetDefaultServiceLimits : rcmgr.Limiter -> rcmgr.Limiter;
  NewResourceManager :
    rcmgr.Limiter -> list rcmgrOption -> rcmgr.resourceManager + error
}.

(** The value of [enabled] when the [if enabled] of the constructor is
    reached: the configuration first, then the environment override. *)
Definition ResourceManager_enabled (cfg : config.ResourceMgr) (env : Env) : bool :=
  (* Config Swarm.ResourceMgr.Enabled decides if we run a real manager *)
  let enabled := config.WithDefault (config.Enabled cfg) false in
  (* ENV overrides Config (if present) *)
  let v := Getenv env "LIBP2P_RCMGR" in
  if String.eqb v "0" || String.eqb v "false" then false
  else if String.eqb v "1" || String.eqb v "true" then true
  else enabled.

(** The loop that applies the user-defined [Swarm.ResourceMgr.Limits]. *)
Fixpoint applyLimits (manager : rcmgr.resourceManager)
  (limits : list (string * config.ResourceMgrScopeConfig))
  : rcmgr.resourceManager + error :=
  match limits with
  | nil => inl manager
  | (scope, userLimit) :: rest =>
      match NetSetLimit manager scope userLimit with
      | (_, Some err) => inr (Errorf_applying_limits scope err)
      | (manager', None) => applyLimits manager' rest
      end
  end.

(** The constructor, run with the default registry of the Prometheus
    client in the state [reg]: [None] when it panics, else the registry
    it leaves and the manager it returns, or its error.  The libp2p option
    and the shutdown hook it also registers are left out. *)
Definition ResourceManager (cfg : config.ResourceMgr) (env : Env)
  (reg : prometheus.Registry)
  : option (prometheus.Registry
            * ((nullResourceManager + rcmgr.resourceManager) + error)) :=
  if ResourceManager_enabled cfg env then
    match PathRoot env with
    | inr err => Some (reg, inr (Errorf_opening_IPFS_PATH err))
    | inl repoPath =>
        (* Try defaults from limit.json if provided *)
        let limitFilePath := Join env repoPath NetLimitDefaultFilename in
        let limiter :=
          match limitFile env limitFilePath with
          | fileOpenFails err => inr (Errorf_opening_limit_file limitFilePath err)
          | fileOpens (inr err) => inr (Errorf_parsing_limit_file err)
          | fileOpens (inl l) => inl l
          | fileNotExist => (* Use defaults from go-libp2p *)
              inl (NewDefaultLimiter env)
          end in
        match limiter with
        | inr err => Some (reg, inr err)
        | inl limiter =>
            let limiter := SetDefaultServiceLimits env limiter in
            match createRcmgrMetrics reg with
            | None => (* MustRegister panics *) None
            | Some (reg, reporter) =>
                let ropts := WithMetrics reporter :: nil in
                let ropts :=
                  if String.eqb (Getenv env "LIBP2P_DEBUG_RCMGR") ""
                  then ropts
                  else app ropts
                         (WithTrace (Join env repoPath NetLimitTraceFilename) :: nil) in
                match NewResourceManager env limiter ropts with
                | inr err => Some (reg, inr (Errorf_creating_resource_manager err))
                | inl manager =>
                    (* Apply user-defined Swarm.ResourceMgr.Limits *)
                    match applyLimits manager (config.Limits cfg) with
                    | inr err => Some (reg, inr err)
                    | inl manager' => Some (reg, inl (inr manager'))
                    end
                end
            end
        end
    end
  else
    Some (reg, inl (inl NullResourceManager)).

End libp2p.

Definition getDirection (d : network.Direction) : string :=
  match d with
  | network.DirInbound => "inbound"
  | network.DirOutbound => "outbound"
  | _ => ""
  end.

(** ** Vocabulary of the properties *)

(** A manager that wraps another one and records every view it is asked
    for, before handing the call on.  It is one more implementation of the
    interface: whatever holds of every implementation holds of it, and its
    record shows which views a function has called. *)
Inductive viewCall : Type :=
| calledViewSystem
| calledViewTransient
| calledViewService (svc : string)
| calledViewProtocol (proto : protocol.ID)
| calledViewPeer (pid : peer.ID).

Record recording (M : Type) : Type := {
  inner : M;
  calls : list viewCall
}.

Arguments inner {M} _.
Arguments calls {M} _.

Definition record {M R : Type} (c : viewCall) (m : recording M)
  (v : M * R * option error) : recording M * R * option error :=
  ({| inner := v.1.1; calls := c :: calls m |}, v.1.2, v.2).

#[export] Instance recording_impl {M : Type} `{!network_rcmgr.ResourceManager M}
  : network_rcmgr.ResourceManager (recording M) := {|
  ViewSystem R m f r := record calledViewSystem m (ViewSystem (inner m) f r);
  ViewTransient R m f r := record calledViewTransient m (ViewTransient (inner m) f r);
  ViewService R m svc f r :=
    record (calledViewService svc) m (ViewService (inner m) svc f r);
  ViewProtocol R m p f r :=
    record (calledViewProtocol p) m (ViewProtocol (inner m) p f r);
  ViewPeer R m p f r := record (calledViewPeer p) m (ViewPeer (inner m) p f r);
  ResourceManagerState m := ResourceManagerState (inner m)
|}.

(** A manager whose views do what both managers of this program do: run
    the callback once, on some scope, and return what it returned. *)
Definition runsCallback {M R : Type}
  (view : M -> callback R -> R -> M * R * option error) : Prop :=
  forall (m : M) (f : callback R) (r : R),
    exists (m' : M) (s : ResourceScope),
      view m f r = (m', (f s r).1.2, (f s r).2).

Class ViewsRunCallback (M : Type) `{!network_rcmgr.ResourceManager M} : Prop := {
  ViewSystem_runs : forall R, runsCallback (@ViewSystem M _ R);
  ViewTransient_runs : forall R, runsCallback (@ViewTransient M _ R);
  ViewService_runs : forall R svc, runsCallback (fun m => @ViewService M _ R m svc);
  ViewProtocol_runs : forall R p, runsCallback (fun m => @ViewProtocol M _ R m p);
  ViewPeer_runs : forall R p, runsCallback (fun m => @ViewPeer M _ R m p)
}.

Section Vocabulary.

Variable peer_Decode : string -> peer.ID + error.

(** The single-scope addresses: [system], [transient], [svc:<name>],
    [proto:<id>] and [peer:<id>] with an identifier that decodes. *)
Inductive validAddress : string -> Prop :=
| addrSystem : validAddress "system"
| addrTransient : validAddress "transient"
| addrService (name : string) : validAddress (String.append "svc:" name)
| addrProtocol (id : string) : validAddress (String.append "proto:" id)
| addrPeer (p : string) (pid : peer.ID) :
    peer_Decode p = inl pid -> validAddress (String.append "peer:" p).

(** The scope of the real manager an address names: a scope that does not
    exist yet is the one its first view creates. *)
Definition scopeAt (m : rcmgr.resourceManager) (scope : string)
  : option rcmgr.resourceScope :=
  if String.eqb scope "system" then Some (rcmgr.system m)
  else if String.eqb scope "transient" then Some (rcmgr.transient m)
  else if String.prefix "svc:" scope then
    Some (rcmgr.getServiceScope m (slice_from 4 scope)).2
  else if String.prefix "proto:" scope then
    Some (rcmgr.getProtocolScope m (slice_from 6 scope)).2
  else if String.prefix "peer:" scope then
    match peer_Decode (slice_from 5 scope) with
    | inl pid => Some (rcmgr.getPeerScope m pid).2
    | inr _ => None
    end
  else None.

(** A [NetStatOut] in which one field is set, the one of the category of
    the address, and the other four are [nil]. *)
Definition setsOneField (scope : string) (result : NetStatOut) : Prop :=
  exists stat : network.ScopeStat,
    (scope = "system"
     /\ result = {| System := Some stat; Transient := None;
                    Services := None; Protocols := None; Peers := None |})
    \/ (scope = "transient"
        /\ result = {| System := None; Transient := Some stat;
                       Services := None; Protocols := None; Peers := None |})
    \/ (exists svc : string,
          scope = String.append "svc:" svc
          /\ result = {| System := None; Transient := None;
                         Services := Some {[ svc := stat ]};
                         Protocols := None; Peers := None |})
    \/ (exists proto : string,
          scope = String.append "proto:" proto
          /\ result = {| System := None; Transient := None; Services := None;
                         Protocols := Some {[ proto := stat ]}; Peers := None |})
    \/ (exists (p : string) (pid : peer.ID),
          scope = String.append "peer:" p
          /\ peer_Decode p = inl pid
          /\ result = {| System := None; Transient := None; Services := None;
                         Protocols := None; Peers := Some {[ p := stat ]} |}).

End Vocabulary.


(** What [NetLimit] reports for a limit of each recognised variant. *)
Definition staticConfig (Memory : Z) (b : rcmgr.BaseLimit) : config.ResourceMgrScopeConfig :=
  {| config.Dynamic := false;
     config.Memory := Memory;
     config.MemoryFraction := 0%float;
     config.MinMemory := 0;
     config.MaxMemory := 0;
     config.Streams := rcmgr.Streams b;
     config.StreamsInbound := rcmgr.StreamsInbound b;
     config.StreamsOutbound := rcmgr.StreamsOutbound b;
     config.Conns := rcmgr.Conns b;
     config.ConnsInbound := rcmgr.ConnsInbound b;
     config.ConnsOutbound := rcmgr.ConnsOutbound b;
     config.FD := rcmgr.FD b |}.

Definition dynamicConfig (ml : rcmgr.MemoryLimit) (b : rcmgr.BaseLimit)
  : config.ResourceMgrScopeConfig :=
  {| config.Dynamic := true;
     config.Memory := 0;
     config.MemoryFraction := rcmgr.MemoryFraction ml;
     config.MinMemory := rcmgr.MinMemory ml;
     config.MaxMemory := rcmgr.MaxMemory ml;
     config.Streams := rcmgr.Streams b;
     config.StreamsInbound := rcmgr.StreamsInbound b;
     config.StreamsOutbound := rcmgr.StreamsOutbound b;
     config.Conns := rcmgr.Conns b;
     config.ConnsInbound := rcmgr.ConnsInbound b;
     config.ConnsOutbound := rcmgr.ConnsOutbound b;
     config.FD := rcmgr.FD b |}.

(** What [getLimit] makes of a limit, from the zero configuration. *)
Definition limitConfig (l : rcmgr.Limit)
  : config.ResourceMgrScopeConfig * option error :=
  match l with
  | rcmgr.StaticLimit Memory b => (staticConfig Memory b, None)
  | rcmgr.DynamicLimit ml b => (dynamicConfig ml b, None)
  | rcmgr.otherLimit T => (config.zero, Some (Errorf_unknown_limit_type T))
  end.

(** [L] with the memory fields of the variant it is not set to zero. *)
Definition readBack (L : config.ResourceMgrScopeConfig) : config.ResourceMgrScopeConfig :=
  {| config.Dynamic := config.Dynamic L;
     config.Memory := if config.Dynamic L then 0 else config.Memory L;
     config.MemoryFraction :=
       if config.Dynamic L then config.MemoryFraction L else 0%float;
     config.MinMemory := if config.Dynamic L then config.MinMemory L else 0;
     config.MaxMemory := if config.Dynamic L then config.MaxMemory L else 0;
     config.Streams := config.Streams L;
     config.StreamsInbound := config.StreamsInbound L;
     config.StreamsOutbound := config.StreamsOutbound L;
     config.Conns := config.Conns L;
     config.ConnsInbound := config.ConnsInbound L;
     config.ConnsOutbound := config.ConnsOutbound L;
     config.FD := config.FD L |}.

(** A configuration in which the memory fields of the other variant are
    left at their zero value: those a static limit has no place for when
    [Dynamic] is false, the one a dynamic limit has no place for otherwise. *)
Definition ofItsVariant (L : config.ResourceMgrScopeConfig) : Prop :=
  if config.Dynamic L then config.Memory L = 0
  else config.MemoryFraction L = 0%float
       /\ config.MinMemory L = 0 /\ config.MaxMemory L = 0.

(** ** Concrete surroundings for the examples *)

(** A stand-in for [peer.Decode]: identifiers start with [Qm]. *)
Definition exampleDecode (s : string) : peer.ID + error :=
  if String.prefix "Qm" s then inl s
  else inr (errors_New "failed to parse peer ID").

Definition examplePretty (p : peer.ID) : string := p.

Definition exampleBase : rcmgr.BaseLimit :=
  {| rcmgr.Streams := 16; rcmgr.StreamsInbound := 8; rcmgr.StreamsOutbound := 8;
     rcmgr.Conns := 4; rcmgr.ConnsInbound := 2; rcmgr.ConnsOutbound := 2;
     rcmgr.FD := 1 |}.

Definition exampleLimiter : rcmgr.Limiter :=
  {| rcmgr.GetSystemLimits := rcmgr.StaticLimit 1024 exampleBase;
     rcmgr.GetTransientLimits := rcmgr.StaticLimit 512 exampleBase;
     rcmgr.GetServiceLimits _ := rcmgr.StaticLimit 256 exampleBase;
     rcmgr.GetProtocolLimits _ := rcmgr.StaticLimit 128 exampleBase;
     rcmgr.GetPeerLimits _ :=
       rcmgr.DynamicLimit
         {| rcmgr.MemoryFraction := 0.5%float;
            rcmgr.MinMemory := 64; rcmgr.MaxMemory := 2048 |}
         exampleBase |}.

(** The scope of the [identify] service, in use. *)
Definition exampleIdentify : rcmgr.resourceScope :=
  {| rcmgr.stat :=
       {| network.NumStreamsInbound := 1; network.NumStreamsOutbound := 0;
          network.NumConnsInbound := 0; network.NumConnsOutbound := 0;
          network.NumFD := 0; network.Memory := 4096 |};
     rcmgr.limit := rcmgr.StaticLimit 256 exampleBase |}.

(** A manager with that service scope and no protocol or peer scope. *)
Definition exampleManager : rcmgr.resourceManager :=
  rcmgr.putService (rcmgr.newResourceManager exampleLimiter) "identify"
    exampleIdentify.

(** The same manager, recording the views it is asked for. *)
Definition exampleRecording : recording rcmgr.resourceManager :=
  {| inner := exampleManager; calls := nil |}.

Definition exampleStatic : config.ResourceMgrScopeConfig :=
  {| config.Dynamic := false; config.Memory := 4096;
     config.MemoryFraction := 0%float; config.MinMemory := 0; config.MaxMemory := 0;
     config.Streams := 10; config.StreamsInbound := 5; config.StreamsOutbound := 5;
     config.Conns := 6; config.ConnsInbound := 3; config.ConnsOutbound := 3;
     config.FD := 2 |}.

(** Static, yet with [MinMemory] filled in. *)
Definition exampleStaticWithMin : config.ResourceMgrScopeConfig :=
  {| config.Dynamic := false; config.Memory := 4096;
     config.MemoryFraction := 0%float; config.MinMemory := 5; config.MaxMemory := 0;
     config.Streams := 10; config.StreamsInbound := 5; config.StreamsOutbound := 5;
     config.Conns := 6; config.ConnsInbound := 3; config.ConnsOutbound := 3;
     config.FD := 2 |}.

Definition exampleDynamic : config.ResourceMgrScopeConfig :=
  {| config.Dynamic := true; config.Memory := 0;
     config.MemoryFraction := 0.25%float; config.MinMemory := 1024;
     config.MaxMemory := 65536;
     config.Streams := 10; config.StreamsInbound := 5; config.StreamsOutbound := 5;
     config.Conns := 6; config.ConnsInbound := 3; config.ConnsOutbound := 3;
     config.FD := 2 |}.

Definition exampleEnv (LIBP2P_RCMGR : string) : Env :=
  {| Getenv name := if String.eqb name "LIBP2P_RCMGR" then LIBP2P_RCMGR else "";
     PathRoot := inl "/root/.ipfs";
     Join dir name := String.append dir (String.append "/" name);
     limitFile _ := fileNotExist;
     NewDefaultLimiter := exampleLimiter;
     SetDefaultServiceLimits l := l;
     NewResourceManager l _ := inl (rcmgr.newResourceManager l) |}.

(** ** Properties *)

(** *** Strings *)

Lemma prefix_slice (p s : string) :
  String.prefix p s = true -> s = String.append p (slice_from (String.length p) s).
Proof.
  revert s. induction p as [|c p IH]; intros s H.
  - reflexivity.
  - destruct s as [|d s]; simpl in *; [discriminate|].
    destruct (Ascii.ascii_dec c d) as [e|Hne]; [subst d|discriminate].
    change (String c s = String c (String.append p (slice_from (String.length p) s))).
    f_equal. apply IH, H.
Qed.

Lemma slice_append (p s : string) : slice_from (String.length p) (String.append p s) = s.
Proof. induction p as [|c p IH]; simpl; [reflexivity|apply IH]. Qed.

Lemma prefix_append (p s : string) : String.prefix p (String.append p s) = true.
Proof.
  induction p as [|c p IH]; simpl.
  - destruct s; reflexivity.
  - destruct (Ascii.ascii_dec c c); [apply IH|congruence].
Qed.

Lemma prefix_nil (s : string) : String.prefix "" s = true.
Proof. destruct s; reflexivity. Qed.

(** *** Maps *)




Lemma rekey_same {V : Type} (m : gmap string V) :
  rekey (fun k : string => k) m = m.
Proof.
  unfold rekey.
  apply (map_fold_weak_ind (fun out m => out = m)).
  - reflexivity.
  - intros k v m' out _ ->. reflexivity.
Qed.


Lemma rekey_lookup {K : Type} `{Countable K} {V : Type}
  (key : K -> string) (m : gmap K V) :
  (forall a b, key a = key b -> a = b) ->
  forall k, rekey key m !! key k = m !! k.
Proof.
  intros Hinj. unfold rekey.
  apply (map_fold_weak_ind (fun out m => forall k, out !! key k = m !! k)).
  - intros k. rewrite !lookup_empty. reflexivity.
  - intros i x m' out _ IH k. destruct (decide (i = k)) as [->|Hne].
    + rewrite !lookup_insert_eq. reflexivity.
    + rewrite !lookup_insert_ne; [apply IH|exact Hne|].
      intros Hkey. apply Hne, Hinj, Hkey.
Qed.

Lemma rekey_from {K : Type} `{Countable K} {V : Type}
  (key : K -> string) (m : gmap K V) (s : string) (v : V) :
  rekey key m !! s = Some v -> exists k, key k = s /\ m !! k = Some v.
Proof.
  unfold rekey. revert s v.
  apply (map_fold_weak_ind
           (fun out m => forall s v, out !! s = Some v ->
                                     exists k, key k = s /\ m !! k = Some v)).
  - intros s v. rewrite lookup_empty. discriminate.
  - intros i x m' out Hnone IH s v.
    destruct (decide (key i = s)) as [<-|Hne].
    + rewrite lookup_insert_eq. intros [= <-]. exists i.
      split; [reflexivity|apply lookup_insert_eq].
    + rewrite lookup_insert_ne by exact Hne. intros Hs.
      destruct (IH s v Hs) as (k & Hk & Hv). exists k. split; [exact Hk|].
      rewrite lookup_insert_ne; [exact Hv|]. intros ->. congruence.
Qed.




(** stdpp keeps [String.append] folded; the dispatch on an address needs
    its first characters. *)
Ltac spell_out := cbv beta iota delta [String.append].

Ltac not_this_scope H := apply String.eqb_neq in H; rewrite H.

Section Properties.

Variable peer_Decode : string -> peer.ID + error.
Variable peer_Pretty : peer.ID -> string.

Section AnyManager.

Context {M : Type} `{!network_rcmgr.ResourceManager M}.

(** Where each form of address sends the three functions. *)
Lemma dispatch_system (mgr : M) (limit : config.ResourceMgrScopeConfig) :
  NetStat peer_Decode peer_Pretty mgr "system"
    = ViewSystem mgr
        (fun s result => (s, set_System result (Some (Stat s)), None))
        NetStatOut_zero
  /\ NetLimit peer_Decode mgr "system" = ViewSystem mgr getLimit config.zero
  /\ NetSetLimit peer_Decode mgr "system" limit
    = ((ViewSystem mgr (setLimit limit) tt).1.1, (ViewSystem mgr (setLimit limit) tt).2).
Proof. repeat split. Qed.

Lemma dispatch_transient (mgr : M) (limit : config.ResourceMgrScopeConfig) :
  NetStat peer_Decode peer_Pretty mgr "transient"
    = ViewTransient mgr
        (fun s result => (s, set_Transient result (Some (Stat s)), None))
        NetStatOut_zero
  /\ NetLimit peer_Decode mgr "transient" = ViewTransient mgr getLimit config.zero
  /\ NetSetLimit peer_Decode mgr "transient" limit
    = ((ViewTransient mgr (setLimit limit) tt).1.1,
       (ViewTransient mgr (setLimit limit) tt).2).
Proof. repeat split. Qed.

Lemma dispatch_service (mgr : M) (svc : string) (limit : config.ResourceMgrScopeConfig) :
  NetStat peer_Decode peer_Pretty mgr (String.append "svc:" svc)
    = ViewService mgr svc
        (fun s result => (s, set_Services result (Some {[ svc := Stat s ]}), None))
        NetStatOut_zero
  /\ NetLimit peer_Decode mgr (String.append "svc:" svc)
    = ViewService mgr svc getLimit config.zero
  /\ NetSetLimit peer_Decode mgr (String.append "svc:" svc) limit
    = ((ViewService mgr svc (setLimit limit) tt).1.1,
       (ViewService mgr svc (setLimit limit) tt).2).
Proof.
  unfold NetStat, NetLimit, NetSetLimit. spell_out. cbn.
  rewrite prefix_nil. repeat split.
Qed.

Lemma dispatch_protocol (mgr : M) (proto : string) (limit : config.ResourceMgrScopeConfig) :
  NetStat peer_Decode peer_Pretty mgr (String.append "proto:" proto)
    = ViewProtocol mgr proto
        (fun s result => (s, set_Protocols result (Some {[ proto := Stat s ]}), None))
        NetStatOut_zero
  /\ NetLimit peer_Decode mgr (String.append "proto:" proto)
    = ViewProtocol mgr proto getLimit config.zero
  /\ NetSetLimit peer_Decode mgr (String.append "proto:" proto) limit
    = ((ViewProtocol mgr proto (setLimit limit) tt).1.1,
       (ViewProtocol mgr proto (setLimit limit) tt).2).
Proof.
  unfold NetStat, NetLimit, NetSetLimit. spell_out. cbn.
  rewrite prefix_nil. repeat split.
Qed.

Lemma dispatch_peer (mgr : M) (p : string) (pid : peer.ID)
  (limit : config.ResourceMgrScopeConfig) :
  peer_Decode p = inl pid ->
  NetStat peer_Decode peer_Pretty mgr (String.append "peer:" p)
    = ViewPeer mgr pid
        (fun s result => (s, set_Peers result (Some {[ p := Stat s ]}), None))
        NetStatOut_zero
  /\ NetLimit peer_Decode mgr (String.append "peer:" p)
    = ViewPeer mgr pid getLimit config.zero
  /\ NetSetLimit peer_Decode mgr (String.append "peer:" p) limit
    = ((ViewPeer mgr pid (setLimit limit) tt).1.1,
       (ViewPeer mgr pid (setLimit limit) tt).2).
Proof.
  intros Hdecode. unfold NetStat, NetLimit, NetSetLimit. spell_out. cbn.
  rewrite prefix_nil, Hdecode. repeat split.
Qed.

(** A scope string of no known form is refused by the three functions
    before they touch the manager, whatever implements it. *)
Lemma invalid_scope_any_manager (mgr : M) (scope : string)
  (limit : config.ResourceMgrScopeConfig) :
  scope <> "all" -> scope <> "system" -> scope <> "transient" ->
  String.prefix "svc:" scope = false ->
  String.prefix "proto:" scope = false ->
  String.prefix "peer:" scope = false ->
  NetStat peer_Decode peer_Pretty mgr scope
    = (mgr, NetStatOut_zero, Some (Errorf_invalid_scope scope))
  /\ NetLimit peer_Decode mgr scope
    = (mgr, config.zero, Some (Errorf_invalid_scope scope))
  /\ NetSetLimit peer_Decode mgr scope limit
    = (mgr, Some (Errorf_invalid_scope scope)).
Proof.
  intros Hall Hsys Htra Hsvc Hproto Hpeer.
  unfold NetStat, NetLimit, NetSetLimit,
    config.ResourceMgrSystemScope, config.ResourceMgrTransientScope,
    config.ResourceMgrServiceScopePrefix, config.ResourceMgrProtocolScopePrefix,
    config.ResourceMgrPeerScopePrefix.
  not_this_scope Hall. not_this_scope Hsys. not_this_scope Htra.
  rewrite Hsvc, Hproto, Hpeer. auto.
Qed.


(** A [peer:] address whose suffix does not decode is refused by the three
    functions before they touch the manager, whatever implements it. *)
Lemma undecodable_peer_any_manager (mgr : M) (p : string) (err : error)
  (limit : config.ResourceMgrScopeConfig) :
  peer_Decode p = inr err ->
  NetStat peer_Decode peer_Pretty mgr (String.append "peer:" p)
    = (mgr, NetStatOut_zero, Some (Errorf_invalid_peer_ID p err))
  /\ NetLimit peer_Decode mgr (String.append "peer:" p)
    = (mgr, config.zero, Some (Errorf_invalid_peer_ID p err))
  /\ NetSetLimit peer_Decode mgr (String.append "peer:" p) limit
    = (mgr, Some (Errorf_invalid_peer_ID p err)).
Proof.
  intros Hdecode.
  unfold NetStat, NetLimit, NetSetLimit. spell_out. cbn.
  rewrite prefix_nil, Hdecode. auto.
Qed.

(** C9: [NetLimit] and [NetSetLimit] do not know the address [all]: on
    every manager, enabled or not, they return the invalid-scope error for
    it; [NetStat] on the same address never does. *)
Theorem all_is_for_NetStat_only (mgr : M) (limit : config.ResourceMgrScopeConfig) :
  NetLimit peer_Decode mgr "all"
    = (mgr, config.zero, Some (Errorf_invalid_scope "all"))
  /\ NetSetLimit peer_Decode mgr "all" limit
    = (mgr, Some (Errorf_invalid_scope "all"))
  /\ (NetStat peer_Decode peer_Pretty mgr "all").2
       ≠ Some (Errorf_invalid_scope "all").
Proof.
  split; [reflexivity|]. split; [reflexivity|].
  unfold NetStat. cbn.
  destruct (ResourceManagerState mgr); cbn; discriminate.
Qed.


End AnyManager.
(** *** Managers whose views run the callback *)

Section RunningManager.

Context {M : Type} `{!network_rcmgr.ResourceManager M} `{!ViewsRunCallback M}.

Ltac run_view lemma :=
  match goal with
  | |- context [ViewSystem ?m ?f ?r] =>
      destruct (lemma _ m f r) as (?m' & ?s & ->)
  | |- context [ViewTransient ?m ?f ?r] =>
      destruct (lemma _ m f r) as (?m' & ?s & ->)
  | |- context [ViewService ?m ?k ?f ?r] =>
      let E := fresh "E" in
      destruct (lemma _ k m f r) as (?m' & ?s & E); cbv beta in E; rewrite E
  | |- context [ViewProtocol ?m ?k ?f ?r] =>
      let E := fresh "E" in
      destruct (lemma _ k m f r) as (?m' & ?s & E); cbv beta in E; rewrite E
  | |- context [ViewPeer ?m ?k ?f ?r] =>
      let E := fresh "E" in
      destruct (lemma _ k m f r) as (?m' & ?s & E); cbv beta in E; rewrite E
  end.

(** C10: a successful [NetStat] on an address other than [all] sets one
    field of [NetStatOut], the one of the address's category, and leaves the
    other four [nil]: [System] for [system], [Transient] for [transient],
    and for [svc:], [proto:] and [peer:] a map with the single key that
    follows the prefix. *)
Theorem NetStat_single_scope_sets_one_field (mgr mgr' : M) (scope : string)
  (result : NetStatOut) :
  scope <> "all" ->
  NetStat peer_Decode peer_Pretty mgr scope = (mgr', result, None) ->
  setsOneField peer_Decode scope result.
Proof.
  intros Hall. unfold setsOneField, NetStat,
    config.ResourceMgrSystemScope, config.ResourceMgrTransientScope,
    config.ResourceMgrServiceScopePrefix, config.ResourceMgrProtocolScopePrefix,
    config.ResourceMgrPeerScopePrefix.
  not_this_scope Hall. cbv zeta.
  destruct (String.eqb_spec scope "system") as [->|Hsys].
  { run_view ViewSystem_runs. intros [= _ <-].
    eexists. left. split; reflexivity. }
  destruct (String.eqb_spec scope "transient") as [->|Htra].
  { run_view ViewTransient_runs. intros [= _ <-].
    eexists. right; left. split; reflexivity. }
  destruct (String.prefix "svc:" scope) eqn:Esvc.
  { apply prefix_slice in Esvc.
    run_view ViewService_runs. intros [= _ <-].
    eexists. right; right; left. eexists. split; [exact Esvc|reflexivity]. }
  destruct (String.prefix "proto:" scope) eqn:Eproto.
  { apply prefix_slice in Eproto.
    run_view ViewProtocol_runs. intros [= _ <-].
    eexists. right; right; right; left. eexists. split; [exact Eproto|reflexivity]. }
  destruct (String.prefix "peer:" scope) eqn:Epeer; [|intros [=]].
  apply prefix_slice in Epeer.
  destruct (peer_Decode (slice_from 5 scope)) as [pid|err] eqn:Edecode; [|intros [=]].
  run_view ViewPeer_runs. intros [= _ <-].
  eexists. right; right; right; right. exists (slice_from 5 scope), pid.
  split; [exact Epeer|]. split; [exact Edecode|reflexivity].
Qed.

End RunningManager.

End Properties.

(** *** No view is called on a refused address *)

Section Refused.

Variable peer_Decode : string -> peer.ID + error.
Variable peer_Pretty : peer.ID -> string.

Context {M : Type} `{!network_rcmgr.ResourceManager M}.

(** The recording manager does record: [NetStat] with scope [system] adds
    one call of [ViewSystem] to its record. *)
Lemma recording_records_ViewSystem (rec : recording M) :
  calls (NetStat peer_Decode peer_Pretty rec "system").1.1
  = calledViewSystem :: calls rec.
Proof. reflexivity. Qed.

(** ... and with a [peer:] address that decodes, one call of [ViewPeer]. *)
Lemma recording_records_ViewPeer (rec : recording M) (p : string) (pid : peer.ID) :
  peer_Decode p = inl pid ->
  calls (NetStat peer_Decode peer_Pretty rec (String.append "peer:" p)).1.1
  = calledViewPeer pid :: calls rec.
Proof.
  intros Hdecode.
  rewrite (proj1 (dispatch_peer peer_Decode peer_Pretty rec p pid config.zero Hdecode)).
  reflexivity.
Qed.

(** C7: a scope string that is none of [all], [system], [transient] and
    carries none of the prefixes [svc:], [proto:], [peer:] makes [NetStat],
    [NetLimit] and [NetSetLimit] return the invalid-scope error naming that
    string, with the zero result and the manager as it was, whatever
    implements the manager; no scope is resolved: a manager that records
    the views it is asked for has recorded none when they return. *)
Theorem invalid_scope_rejected (mgr : M) (rec : recording M) (scope : string)
  (limit : config.ResourceMgrScopeConfig) :
  scope <> "all" -> scope <> "system" -> scope <> "transient" ->
  String.prefix "svc:" scope = false ->
  String.prefix "proto:" scope = false ->
  String.prefix "peer:" scope = false ->
  (NetStat peer_Decode peer_Pretty mgr scope
     = (mgr, NetStatOut_zero, Some (Errorf_invalid_scope scope))
   /\ NetLimit peer_Decode mgr scope
     = (mgr, config.zero, Some (Errorf_invalid_scope scope))
   /\ NetSetLimit peer_Decode mgr scope limit
     = (mgr, Some (Errorf_invalid_scope scope)))
  /\ (calls (NetStat peer_Decode peer_Pretty rec scope).1.1 = calls rec
      /\ calls (NetLimit peer_Decode rec scope).1.1 = calls rec
      /\ calls (NetSetLimit peer_Decode rec scope limit).1 = calls rec).
Proof.
  intros Hall Hsys Htra Hsvc Hproto Hpeer. split.
  - apply invalid_scope_any_manager; assumption.
  - destruct (invalid_scope_any_manager peer_Decode peer_Pretty rec scope limit
                Hall Hsys Htra Hsvc Hproto Hpeer) as (-> & -> & ->).
    repeat split.
Qed.

(** C8: a [peer:] address whose suffix [peer.Decode] refuses makes
    [NetStat], [NetLimit] and [NetSetLimit] return the invalid-peer-ID error
    carrying the suffix and the decoder's error, with the zero result and
    the manager as it was, whatever implements the manager; [ViewPeer] is
    not called: a manager that records the views it is asked for has
    recorded none when they return. *)
Theorem undecodable_peer_rejected (mgr : M) (rec : recording M) (p : string)
  (err : error) (limit : config.ResourceMgrScopeConfig) :
  peer_Decode p = inr err ->
  (NetStat peer_Decode peer_Pretty mgr (String.append "peer:" p)
     = (mgr, NetStatOut_zero, Some (Errorf_invalid_peer_ID p err))
   /\ NetLimit peer_Decode mgr (String.append "peer:" p)
     = (mgr, config.zero, Some (Errorf_invalid_peer_ID p err))
   /\ NetSetLimit peer_Decode mgr (String.append "peer:" p) limit
     = (mgr, Some (Errorf_invalid_peer_ID p err)))
  /\ (calls (NetStat peer_Decode peer_Pretty rec (String.append "peer:" p)).1.1
        = calls rec
      /\ calls (NetLimit peer_Decode rec (String.append "peer:" p)).1.1 = calls rec
      /\ calls (NetSetLimit peer_Decode rec (String.append "peer:" p) limit).1
        = calls rec).
Proof.
  intros Hdecode. split.
  - apply undecodable_peer_any_manager; assumption.
  - destruct (undecodable_peer_any_manager peer_Decode peer_Pretty rec p err limit
                Hdecode) as (-> & -> & ->).
    repeat split.
Qed.

End Refused.

(** *** The two managers of the program *)

#[export] Instance nullResourceManager_runs : ViewsRunCallback nullResourceManager.
Proof.
  split; intros; intros m f r; exists m, nullScope; cbn; unfold nullView;
    destruct (f nullScope r) as [[s' r'] err]; reflexivity.
Qed.

Lemma rcmgr_ViewSystem {R : Type} (m : rcmgr.resourceManager) (f : callback R) (r : R) :
  ViewSystem m f r
  = (rcmgr.putSystem m (scopeView (rcmgr.system m) f r).1.1,
     (scopeView (rcmgr.system m) f r).1.2, (scopeView (rcmgr.system m) f r).2).
Proof. cbn. destruct (scopeView (rcmgr.system m) f r) as [[s' r'] err]. reflexivity. Qed.

Lemma rcmgr_ViewTransient {R : Type} (m : rcmgr.resourceManager) (f : callback R) (r : R) :
  ViewTransient m f r
  = (rcmgr.putTransient m (scopeView (rcmgr.transient m) f r).1.1,
     (scopeView (rcmgr.transient m) f r).1.2, (scopeView (rcmgr.transient m) f r).2).
Proof. cbn. destruct (scopeView (rcmgr.transient m) f r) as [[s' r'] err]. reflexivity. Qed.

Lemma rcmgr_ViewService {R : Type} (m : rcmgr.resourceManager) (name : string)
  (f : callback R) (r : R) :
  let s := (rcmgr.getServiceScope m name).2 in
  ViewService m name f r
  = (rcmgr.putService m name (scopeView s f r).1.1,
     (scopeView s f r).1.2, (scopeView s f r).2).
Proof.
  cbn. unfold rcmgr.getServiceScope.
  destruct (rcmgr.svc m !! name) as [s|]; cbn;
    match goal with |- context [scopeView ?s f r] =>
      destruct (scopeView s f r) as [[s' r'] err] end; cbn; [reflexivity|].
  unfold rcmgr.putService; cbn. rewrite insert_insert_eq. reflexivity.
Qed.

Lemma rcmgr_ViewProtocol {R : Type} (m : rcmgr.resourceManager) (p : protocol.ID)
  (f : callback R) (r : R) :
  let s := (rcmgr.getProtocolScope m p).2 in
  ViewProtocol m p f r
  = (rcmgr.putProtocol m p (scopeView s f r).1.1,
     (scopeView s f r).1.2, (scopeView s f r).2).
Proof.
  cbn. unfold rcmgr.getProtocolScope.
  destruct (rcmgr.proto m !! p) as [s|]; cbn;
    match goal with |- context [scopeView ?s f r] =>
      destruct (scopeView s f r) as [[s' r'] err] end; cbn; [reflexivity|].
  unfold rcmgr.putProtocol; cbn. rewrite insert_insert_eq. reflexivity.
Qed.

Lemma rcmgr_ViewPeer {R : Type} (m : rcmgr.resourceManager) (p : peer.ID)
  (f : callback R) (r : R) :
  let s := (rcmgr.getPeerScope m p).2 in
  ViewPeer m p f r
  = (rcmgr.putPeer m p (scopeView s f r).1.1,
     (scopeView s f r).1.2, (scopeView s f r).2).
Proof.
  cbn. unfold rcmgr.getPeerScope.
  destruct (rcmgr.peer m !! p) as [s|]; cbn;
    match goal with |- context [scopeView ?s f r] =>
      destruct (scopeView s f r) as [[s' r'] err] end; cbn; [reflexivity|].
  unfold rcmgr.putPeer; cbn. rewrite insert_insert_eq. reflexivity.
Qed.

Lemma scopeView_runs {R : Type} (s : rcmgr.resourceScope) (f : callback R) (r : R) :
  (scopeView s f r).1.2 = (f (limiterScope s) r).1.2
  /\ (scopeView s f r).2 = (f (limiterScope s) r).2.
Proof.
  unfold scopeView. destruct (f (limiterScope s) r) as [[s' r'] err]. split; reflexivity.
Qed.

#[export] Instance resourceManager_runs : ViewsRunCallback rcmgr.resourceManager.
Proof.
  split; intros; intros m f r.
  - rewrite rcmgr_ViewSystem.
    destruct (scopeView_runs (rcmgr.system m) f r) as [-> ->]. eauto.
  - rewrite rcmgr_ViewTransient.
    destruct (scopeView_runs (rcmgr.transient m) f r) as [-> ->]. eauto.
  - rewrite rcmgr_ViewService.
    destruct (scopeView_runs (rcmgr.getServiceScope m svc).2 f r) as [-> ->]. eauto.
  - rewrite rcmgr_ViewProtocol.
    destruct (scopeView_runs (rcmgr.getProtocolScope m p).2 f r) as [-> ->]. eauto.
  - rewrite rcmgr_ViewPeer.
    destruct (scopeView_runs (rcmgr.getPeerScope m p).2 f r) as [-> ->]. eauto.
Qed.

Lemma scopeView_getLimit (s : rcmgr.resourceScope) :
  scopeView s getLimit config.zero
  = (s, (limitConfig (rcmgr.limit s)).1, (limitConfig (rcmgr.limit s)).2).
Proof.
  unfold scopeView, getLimit. cbn.
  destruct (rcmgr.limit s) as [Memory b|ml b|T]; reflexivity.
Qed.

Lemma scopeView_setLimit (s : rcmgr.resourceScope) (L : config.ResourceMgrScopeConfig) :
  scopeView s (setLimit L) tt = (rcmgr.SetLimit s (newLimit L), tt, None).
Proof. reflexivity. Qed.

Lemma limitConfig_newLimit (L : config.ResourceMgrScopeConfig) :
  limitConfig (newLimit L) = (readBack L, None).
Proof. unfold newLimit, readBack. destruct (config.Dynamic L); reflexivity. Qed.

Lemma readBack_fixed (L : config.ResourceMgrScopeConfig) :
  readBack L = L <-> ofItsVariant L.
Proof.
  destruct L as [dyn mem frac mn mx st si so cn ci co fd].
  unfold readBack, ofItsVariant; cbn. destruct dyn; split.
  - intros [= <-]. reflexivity.
  - intros ->. reflexivity.
  - intros [= <- <- <-]. auto.
  - intros (-> & -> & ->). reflexivity.
Qed.

Lemma put_get_system (m : rcmgr.resourceManager) :
  rcmgr.putSystem m (rcmgr.system m) = m.
Proof. destruct m; reflexivity. Qed.

Lemma put_get_transient (m : rcmgr.resourceManager) :
  rcmgr.putTransient m (rcmgr.transient m) = m.
Proof. destruct m; reflexivity. Qed.

Lemma getServiceScope_put (m : rcmgr.resourceManager) (name : string)
  (s : rcmgr.resourceScope) :
  (rcmgr.getServiceScope (rcmgr.putService m name s) name).2 = s
  /\ rcmgr.putService (rcmgr.putService m name s) name s = rcmgr.putService m name s.
Proof.
  unfold rcmgr.getServiceScope, rcmgr.putService; cbn.
  rewrite lookup_insert_eq, insert_insert_eq. split; reflexivity.
Qed.

Lemma getProtocolScope_put (m : rcmgr.resourceManager) (p : protocol.ID)
  (s : rcmgr.resourceScope) :
  (rcmgr.getProtocolScope (rcmgr.putProtocol m p s) p).2 = s
  /\ rcmgr.putProtocol (rcmgr.putProtocol m p s) p s = rcmgr.putProtocol m p s.
Proof.
  unfold rcmgr.getProtocolScope, rcmgr.putProtocol; cbn.
  rewrite lookup_insert_eq, insert_insert_eq. split; reflexivity.
Qed.

Lemma getPeerScope_put (m : rcmgr.resourceManager) (p : peer.ID)
  (s : rcmgr.resourceScope) :
  (rcmgr.getPeerScope (rcmgr.putPeer m p s) p).2 = s
  /\ rcmgr.putPeer (rcmgr.putPeer m p s) p s = rcmgr.putPeer m p s.
Proof.
  unfold rcmgr.getPeerScope, rcmgr.putPeer; cbn.
  rewrite lookup_insert_eq, insert_insert_eq. split; reflexivity.
Qed.

Section TheManagers.

Variable peer_Decode : string -> peer.ID + error.
Variable peer_Pretty : peer.ID -> string.

(** A key function for the lemmas whose [NetStat] part is not used. *)
Let id_key : peer.ID -> string := fun p => p.

(** The addresses [scopeAt] resolves are the valid ones. *)
Lemma scopeAt_valid (m : rcmgr.resourceManager) (scope : string) :
  is_Some (scopeAt peer_Decode m scope) <-> validAddress peer_Decode scope.
Proof.
  unfold scopeAt. split.
  - destruct (String.eqb_spec scope "system") as [->|_]; [constructor|].
    destruct (String.eqb_spec scope "transient") as [->|_]; [constructor|].
    destruct (String.prefix "svc:" scope) eqn:Esvc.
    { intros _. rewrite (prefix_slice _ _ Esvc). constructor. }
    destruct (String.prefix "proto:" scope) eqn:Eproto.
    { intros _. rewrite (prefix_slice _ _ Eproto). constructor. }
    destruct (String.prefix "peer:" scope) eqn:Epeer; [|intros [s [=]]].
    destruct (peer_Decode (slice_from 5 scope)) as [pid|err] eqn:Edecode;
      [|intros [s [=]]].
    intros _. rewrite (prefix_slice _ _ Epeer). econstructor. exact Edecode.
  - intros [| |name|id|p pid Hdecode]; spell_out; cbn; rewrite ?prefix_nil;
      try rewrite Hdecode; eexists; reflexivity.
Qed.

(** What [NetLimit] returns on the real manager: what [getLimit] makes of
    the limit of the scope the address names. *)
Lemma NetLimit_reads_scope (m : rcmgr.resourceManager) (scope : string)
  (s : rcmgr.resourceScope) :
  scopeAt peer_Decode m scope = Some s ->
  exists m' : rcmgr.resourceManager,
    NetLimit peer_Decode m scope
    = (m', (limitConfig (rcmgr.limit s)).1, (limitConfig (rcmgr.limit s)).2).
Proof.
  intros Hs.
  assert (Hvalid : validAddress peer_Decode scope)
    by (apply (scopeAt_valid m); rewrite Hs; eexists; reflexivity).
  destruct Hvalid as [| |name|id|p pid Hdecode];
    unfold scopeAt in Hs; cbv beta iota delta [String.append] in Hs; cbn in Hs;
    rewrite ?prefix_nil in Hs; try rewrite Hdecode in Hs;
    injection Hs as <-; eexists.
  - rewrite (proj1 (proj2 (dispatch_system peer_Decode id_key m config.zero))).
    rewrite rcmgr_ViewSystem, scopeView_getLimit. reflexivity.
  - rewrite (proj1 (proj2 (dispatch_transient peer_Decode id_key m config.zero))).
    rewrite rcmgr_ViewTransient, scopeView_getLimit. reflexivity.
  - rewrite (proj1 (proj2 (dispatch_service peer_Decode id_key m name config.zero))).
    rewrite rcmgr_ViewService, scopeView_getLimit. reflexivity.
  - rewrite (proj1 (proj2 (dispatch_protocol peer_Decode id_key m id config.zero))).
    rewrite rcmgr_ViewProtocol, scopeView_getLimit. reflexivity.
  - rewrite (proj1 (proj2 (dispatch_peer peer_Decode id_key m p pid config.zero Hdecode))).
    rewrite rcmgr_ViewPeer, scopeView_getLimit. reflexivity.
Qed.

(** On the real manager and a valid address, [NetSetLimit] with any
    configuration [L] succeeds, and [NetLimit] on the same address then
    succeeds without changing the manager and returns [L]'s [Dynamic] flag,
    its seven [BaseLimit] fields and the memory fields of its variant, the
    memory fields of the other variant being zero. *)
Lemma NetSetLimit_reads_back (m : rcmgr.resourceManager) (scope : string)
  (L : config.ResourceMgrScopeConfig) :
  validAddress peer_Decode scope ->
  exists m' : rcmgr.resourceManager,
    NetSetLimit peer_Decode m scope L = (m', None)
    /\ NetLimit peer_Decode m' scope = (m', readBack L, None)
    /\ (readBack L = L <-> ofItsVariant L).
Proof.
  intros [| |name|id|p pid Hdecode].
  - exists (rcmgr.putSystem m (rcmgr.SetLimit (rcmgr.system m) (newLimit L))).
    rewrite (proj2 (proj2 (dispatch_system peer_Decode id_key _ L))).
    rewrite (proj1 (proj2 (dispatch_system peer_Decode id_key _ L))).
    rewrite !rcmgr_ViewSystem, scopeView_getLimit, scopeView_setLimit.
    cbn [fst snd rcmgr.putSystem rcmgr.system rcmgr.SetLimit rcmgr.limit].
    rewrite limitConfig_newLimit.
    split; [reflexivity|]. split; [reflexivity|]. apply readBack_fixed.
  - exists (rcmgr.putTransient m (rcmgr.SetLimit (rcmgr.transient m) (newLimit L))).
    rewrite (proj2 (proj2 (dispatch_transient peer_Decode id_key _ L))).
    rewrite (proj1 (proj2 (dispatch_transient peer_Decode id_key _ L))).
    rewrite !rcmgr_ViewTransient, scopeView_getLimit, scopeView_setLimit.
    cbn [fst snd rcmgr.putTransient rcmgr.transient rcmgr.SetLimit rcmgr.limit].
    rewrite limitConfig_newLimit.
    split; [reflexivity|]. split; [reflexivity|]. apply readBack_fixed.
  - set (s1 := rcmgr.SetLimit (rcmgr.getServiceScope m name).2 (newLimit L)).
    exists (rcmgr.putService m name s1).
    rewrite (proj2 (proj2 (dispatch_service peer_Decode id_key _ name L))).
    rewrite (proj1 (proj2 (dispatch_service peer_Decode id_key _ name L))).
    rewrite !rcmgr_ViewService, scopeView_getLimit, scopeView_setLimit.
    cbn [fst snd]. fold s1.
    destruct (getServiceScope_put m name s1) as [-> ->].
    subst s1. cbn [rcmgr.SetLimit rcmgr.limit].
    rewrite limitConfig_newLimit.
    split; [reflexivity|]. split; [reflexivity|]. apply readBack_fixed.
  - set (s1 := rcmgr.SetLimit (rcmgr.getProtocolScope m id).2 (newLimit L)).
    exists (rcmgr.putProtocol m id s1).
    rewrite (proj2 (proj2 (dispatch_protocol peer_Decode id_key _ id L))).
    rewrite (proj1 (proj2 (dispatch_protocol peer_Decode id_key _ id L))).
    rewrite !rcmgr_ViewProtocol, scopeView_getLimit, scopeView_setLimit.
    cbn [fst snd]. fold s1.
    destruct (getProtocolScope_put m id s1) as [-> ->].
    subst s1. cbn [rcmgr.SetLimit rcmgr.limit].
    rewrite limitConfig_newLimit.
    split; [reflexivity|]. split; [reflexivity|]. apply readBack_fixed.
  - set (s1 := rcmgr.SetLimit (rcmgr.getPeerScope m pid).2 (newLimit L)).
    exists (rcmgr.putPeer m pid s1).
    rewrite (proj2 (proj2 (dispatch_peer peer_Decode id_key _ p pid L Hdecode))).
    rewrite (proj1 (proj2 (dispatch_peer peer_Decode id_key _ p pid L Hdecode))).
    rewrite !rcmgr_ViewPeer, scopeView_getLimit, scopeView_setLimit.
    cbn [fst snd]. fold s1.
    destruct (getPeerScope_put m pid s1) as [-> ->].
    subst s1. cbn [rcmgr.SetLimit rcmgr.limit].
    rewrite limitConfig_newLimit.
    split; [reflexivity|]. split; [reflexivity|]. apply readBack_fixed.
Qed.

(** C1: on the real manager and a valid address ([system], [transient],
    [svc:<name>], [proto:<id>] or [peer:<valid-id>]), [NetSetLimit] with a
    limit configuration [L] of either variant (static: [Memory] and the
    seven [BaseLimit] fields; dynamic: [MemoryFraction], [MinMemory],
    [MaxMemory] and the seven [BaseLimit] fields) succeeds, and [NetLimit]
    on the same address then succeeds, leaves the manager as it is and
    returns a configuration equal to [L]. *)
Theorem NetSetLimit_then_NetLimit (m : rcmgr.resourceManager) (scope : string)
  (L : config.ResourceMgrScopeConfig) :
  validAddress peer_Decode scope ->
  ofItsVariant L ->
  exists m' : rcmgr.resourceManager,
    NetSetLimit peer_Decode m scope L = (m', None)
    /\ NetLimit peer_Decode m' scope = (m', L, None).
Proof.
  intros Hvalid Hshape.
  destruct (NetSetLimit_reads_back m scope L Hvalid) as (m' & Hset & Hget & Hfixed).
  exists m'. split; [exact Hset|].
  rewrite Hget. rewrite (proj2 Hfixed Hshape). reflexivity.
Qed.

(** C6: when the scope a valid address names on the real manager holds a
    [StaticLimit] or a [DynamicLimit], [NetLimit] succeeds and returns that
    limit's fields with [Dynamic] false, respectively true; the
    unknown-limit-type error is returned exactly when the scope holds a
    limit of another type, so never under that precondition. *)
Theorem NetLimit_recognised_variants (m : rcmgr.resourceManager) (scope : string)
  (s : rcmgr.resourceScope) :
  scopeAt peer_Decode m scope = Some s ->
  (forall Memory b,
      rcmgr.limit s = rcmgr.StaticLimit Memory b ->
      exists m', NetLimit peer_Decode m scope = (m', staticConfig Memory b, None)
                 /\ config.Dynamic (staticConfig Memory b) = false)
  /\ (forall ml b,
        rcmgr.limit s = rcmgr.DynamicLimit ml b ->
        exists m', NetLimit peer_Decode m scope = (m', dynamicConfig ml b, None)
                   /\ config.Dynamic (dynamicConfig ml b) = true)
  /\ (forall T,
        (NetLimit peer_Decode m scope).2 = Some (Errorf_unknown_limit_type T)
        <-> rcmgr.limit s = rcmgr.otherLimit T).
Proof.
  intros Hs. destruct (NetLimit_reads_scope m scope s Hs) as [m' Hread].
  rewrite Hread. cbn [snd].
  split; [|split].
  - intros Memory b Hl. rewrite Hl. exists m'. split; reflexivity.
  - intros ml b Hl. rewrite Hl. exists m'. split; reflexivity.
  - intros T. destruct (rcmgr.limit s) as [Memory b|ml b|T']; cbn; split;
      try discriminate; intros [= ->]; reflexivity.
Qed.

(** C3: the null manager does not implement [ResourceManagerState], and
    [NetStat] with scope [all] on it returns [NoResourceMgrError] with the
    zero [NetStatOut]. *)
Theorem NetStat_all_without_manager :
  ResourceManagerState NullResourceManager = None
  /\ NetStat peer_Decode peer_Pretty NullResourceManager "all"
     = (NullResourceManager, NetStatOut_zero, Some NoResourceMgrError).
Proof. split; reflexivity. Qed.

(** The paths that do check for the null manager: [NetStat] with scope
    [all], and [NetLimit] and [NetSetLimit] with every valid single-scope
    address, fail with [NoResourceMgrError] and leave their result zero.
    [all] is no address of [NetLimit] and [NetSetLimit], which return the
    invalid-scope error for it. *)
Lemma without_manager_ManagerAbsent (scope : string)
  (limit : config.ResourceMgrScopeConfig) :
  NetStat peer_Decode peer_Pretty NullResourceManager "all"
    = (NullResourceManager, NetStatOut_zero, Some NoResourceMgrError)
  /\ (validAddress peer_Decode scope ->
      NetLimit peer_Decode NullResourceManager scope
        = (NullResourceManager, config.zero, Some NoResourceMgrError)
      /\ NetSetLimit peer_Decode NullResourceManager scope limit
        = (NullResourceManager, Some NoResourceMgrError))
  /\ NetLimit peer_Decode NullResourceManager "all"
     = (NullResourceManager, config.zero, Some (Errorf_invalid_scope "all"))
  /\ NetSetLimit peer_Decode NullResourceManager "all" limit
     = (NullResourceManager, Some (Errorf_invalid_scope "all")).
Proof.
  split; [reflexivity|]. split; [|split; reflexivity].
  intros [| |name|id|p pid Hdecode].
  - split; reflexivity.
  - split; reflexivity.
  - rewrite (proj1 (proj2 (dispatch_service peer_Decode id_key _ name limit))).
    rewrite (proj2 (proj2 (dispatch_service peer_Decode id_key _ name limit))).
    split; reflexivity.
  - rewrite (proj1 (proj2 (dispatch_protocol peer_Decode id_key _ id limit))).
    rewrite (proj2 (proj2 (dispatch_protocol peer_Decode id_key _ id limit))).
    split; reflexivity.
  - rewrite (proj1 (proj2 (dispatch_peer peer_Decode id_key _ p pid limit Hdecode))).
    rewrite (proj2 (proj2 (dispatch_peer peer_Decode id_key _ p pid limit Hdecode))).
    split; reflexivity.
Qed.

(** On the null manager [NetStat] with a single-scope address does not
    fail: every view hands the callback the null scope, whose [Stat] is the
    zero snapshot, and the callback of [NetStat] returns no error. *)
Lemma NetStat_single_scope_without_manager (scope : string) :
  validAddress peer_Decode scope ->
  (NetStat peer_Decode peer_Pretty NullResourceManager scope).2 = None.
Proof.
  intros [| |name|id|p pid Hdecode].
  - reflexivity.
  - reflexivity.
  - rewrite (proj1 (dispatch_service peer_Decode peer_Pretty _ name config.zero)).
    reflexivity.
  - rewrite (proj1 (dispatch_protocol peer_Decode peer_Pretty _ id config.zero)).
    reflexivity.
  - rewrite (proj1 (dispatch_peer peer_Decode peer_Pretty _ p pid config.zero Hdecode)).
    reflexivity.
Qed.

(** C2 does not hold of the code: on the null manager [NetStat] with the
    scope [system] does not fail with [NoResourceMgrError]; it returns the
    zero snapshot of the null scope in [System] and no error. *)
Theorem NetStat_system_without_manager :
  NetStat peer_Decode peer_Pretty NullResourceManager "system"
  = (NullResourceManager,
     {| System := Some network.zero; Transient := None;
        Services := None; Protocols := None; Peers := None |},
     None).
Proof. reflexivity. Qed.

(** The constructor returns the null manager exactly when the decision is
    "disabled". *)
Lemma ResourceManager_null_iff_disabled (cfg : config.ResourceMgr) (env : Env)
  (reg reg' : prometheus.Registry) :
  ResourceManager peer_Decode cfg env reg = Some (reg', inl (inl NullResourceManager))
  <-> reg' = reg /\ ResourceManager_enabled cfg env = false.
Proof.
  unfold ResourceManager. destruct (ResourceManager_enabled cfg env).
  - split; [|intros [_ [=]]].
    destruct (PathRoot env) as [repoPath|err]; [|discriminate].
    destruct (limitFile env _) as [|err|[l|err]]; try discriminate;
      destruct (createRcmgrMetrics reg) as [[reg1 reporter]|]; try discriminate;
      destruct (NewResourceManager env _ _) as [manager|err]; try discriminate;
      destruct (applyLimits _ _ _) as [manager'|err]; discriminate.
  - split.
    + intros [= <-]. split; reflexivity.
    + intros [-> _]. reflexivity.
Qed.

(** C4: the decision of the constructor is a function of the variable
    [LIBP2P_RCMGR] and of the configuration with three cases: [0] or
    [false] disables, [1] or [true] enables, and any other value, the empty
    one of an unset variable included, leaves the decision to
    [cfg.Enabled], whose default is false; the constructor returns the null
    manager exactly when the decision is "disabled", and it then leaves the
    registry of the metrics as it found it. *)
Theorem ResourceManager_enabled_three_states (cfg : config.ResourceMgr) (env : Env) :
  let v := Getenv env "LIBP2P_RCMGR" in
  (v = "0" \/ v = "false" -> ResourceManager_enabled cfg env = false)
  /\ (v = "1" \/ v = "true" -> ResourceManager_enabled cfg env = true)
  /\ (v <> "0" -> v <> "false" -> v <> "1" -> v <> "true" ->
      ResourceManager_enabled cfg env
      = config.WithDefault (config.Enabled cfg) false)
  /\ (v = "" ->
      ResourceManager_enabled cfg env
      = config.WithDefault (config.Enabled cfg) false)
  /\ config.WithDefault config.FlagDefault false = false
  /\ (forall reg reg',
        ResourceManager peer_Decode cfg env reg
        = Some (reg', inl (inl NullResourceManager))
        <-> reg' = reg /\ ResourceManager_enabled cfg env = false).
Proof.
  cbv zeta. split; [|split; [|split; [|split; [|split]]]];
    [| | | | |intros reg reg'; apply ResourceManager_null_iff_disabled];
    unfold ResourceManager_enabled.
  - intros [-> | ->]; reflexivity.
  - intros [-> | ->]; reflexivity.
  - intros H0 Hf H1 Ht.
    apply String.eqb_neq in H0, Hf, H1, Ht. rewrite H0, Hf, H1, Ht. reflexivity.
  - intros ->. reflexivity.
  - reflexivity.
Qed.

End TheManagers.

(** ** The properties at concrete inputs *)

(** C1 at the address of a peer, with a static and with a dynamic
    configuration. *)
Lemma NetSetLimit_then_NetLimit_example :
  validAddress exampleDecode "peer:QmPeer"
  /\ (ofItsVariant exampleStatic
      /\ exists m' : rcmgr.resourceManager,
           NetSetLimit exampleDecode exampleManager "peer:QmPeer" exampleStatic
             = (m', None)
           /\ NetLimit exampleDecode m' "peer:QmPeer" = (m', exampleStatic, None))
  /\ (ofItsVariant exampleDynamic
      /\ exists m' : rcmgr.resourceManager,
           NetSetLimit exampleDecode exampleManager "peer:QmPeer" exampleDynamic
             = (m', None)
           /\ NetLimit exampleDecode m' "peer:QmPeer" = (m', exampleDynamic, None)).
Proof.
  assert (Hvalid : validAddress exampleDecode "peer:QmPeer").
  { apply (addrPeer exampleDecode "QmPeer" "QmPeer"). reflexivity. }
  assert (Hstatic : ofItsVariant exampleStatic).
  { repeat split; reflexivity. }
  assert (Hdynamic : ofItsVariant exampleDynamic).
  { reflexivity. }
  split; [exact Hvalid|]. split.
  - split; [exact Hstatic|].
    exact (NetSetLimit_then_NetLimit exampleDecode exampleManager "peer:QmPeer"
             exampleStatic Hvalid Hstatic).
  - split; [exact Hdynamic|].
    exact (NetSetLimit_then_NetLimit exampleDecode exampleManager "peer:QmPeer"
             exampleDynamic Hvalid Hdynamic).
Defined.

(** The memory fields of the other variant are not stored: a static
    configuration that also has [MinMemory] set is read back without it. *)
Lemma static_MinMemory_is_not_read_back :
  let m' :=
    (NetSetLimit exampleDecode exampleManager "peer:QmPeer" exampleStaticWithMin).1 in
  NetSetLimit exampleDecode exampleManager "peer:QmPeer" exampleStaticWithMin
    = (m', None)
  /\ NetLimit exampleDecode m' "peer:QmPeer" = (m', exampleStatic, None)
  /\ config.MinMemory exampleStaticWithMin = 5
  /\ config.MinMemory exampleStatic = 0
  /\ Z.eqb (config.MinMemory exampleStatic) (config.MinMemory exampleStaticWithMin)
     = false.
Proof. vm_compute. repeat split. Qed.

(** C4 with the variable set to [true], to [0], and unset. *)
Lemma ResourceManager_enabled_example :
  ResourceManager_enabled
    {| config.Enabled := config.FlagFalse; config.Limits := nil |} (exampleEnv "true")
    = true
  /\ ResourceManager_enabled
       {| config.Enabled := config.FlagTrue; config.Limits := nil |} (exampleEnv "0")
     = false
  /\ ResourceManager_enabled
       {| config.Enabled := config.FlagDefault; config.Limits := nil |} (exampleEnv "")
     = config.WithDefault config.FlagDefault false.
Proof.
  split; [|split].
  - apply (proj1 (proj2 (ResourceManager_enabled_three_states exampleDecode
                           {| config.Enabled := config.FlagFalse; config.Limits := nil |}
                           (exampleEnv "true")))).
    right. reflexivity.
  - apply (proj1 (ResourceManager_enabled_three_states exampleDecode
                    {| config.Enabled := config.FlagTrue; config.Limits := nil |}
                    (exampleEnv "0"))).
    left. reflexivity.
  - apply (proj1 (proj2 (proj2 (proj2
             (ResourceManager_enabled_three_states exampleDecode
                {| config.Enabled := config.FlagDefault; config.Limits := nil |}
                (exampleEnv "")))))).
    reflexivity.
Defined.


(** C6 at the address of the service scope, which holds a static limit. *)
Lemma NetLimit_recognised_variants_example :
  scopeAt exampleDecode exampleManager "svc:identify" = Some exampleIdentify
  /\ rcmgr.limit exampleIdentify = rcmgr.StaticLimit 256 exampleBase
  /\ exists m' : rcmgr.resourceManager,
       NetLimit exampleDecode exampleManager "svc:identify"
         = (m', staticConfig 256 exampleBase, None)
       /\ config.Dynamic (staticConfig 256 exampleBase) = false.
Proof.
  split; [reflexivity|]. split; [reflexivity|].
  exact (proj1 (NetLimit_recognised_variants exampleDecode exampleManager
                  "svc:identify" exampleIdentify eq_refl)
           256 exampleBase eq_refl).
Defined.

(** C7 at the string [bogus]. *)
Lemma invalid_scope_rejected_example :
  "bogus" <> "all" /\ "bogus" <> "system" /\ "bogus" <> "transient"
  /\ String.prefix "svc:" "bogus" = false
  /\ String.prefix "proto:" "bogus" = false
  /\ String.prefix "peer:" "bogus" = false
  /\ (NetStat exampleDecode examplePretty exampleManager "bogus"
        = (exampleManager, NetStatOut_zero, Some (Errorf_invalid_scope "bogus"))
      /\ NetLimit exampleDecode exampleManager "bogus"
        = (exampleManager, config.zero, Some (Errorf_invalid_scope "bogus"))
      /\ NetSetLimit exampleDecode exampleManager "bogus" exampleStatic
        = (exampleManager, Some (Errorf_invalid_scope "bogus")))
  /\ (calls (NetStat exampleDecode examplePretty exampleRecording "bogus").1.1
        = calls exampleRecording
      /\ calls (NetLimit exampleDecode exampleRecording "bogus").1.1
        = calls exampleRecording
      /\ calls (NetSetLimit exampleDecode exampleRecording "bogus" exampleStatic).1
        = calls exampleRecording).
Proof.
  assert (H1 : "bogus" <> "all") by discriminate.
  assert (H2 : "bogus" <> "system") by discriminate.
  assert (H3 : "bogus" <> "transient") by discriminate.
  exact (conj H1 (conj H2 (conj H3 (conj eq_refl (conj eq_refl (conj eq_refl
           (invalid_scope_rejected exampleDecode examplePretty exampleManager
              exampleRecording "bogus" exampleStatic
              H1 H2 H3 eq_refl eq_refl eq_refl))))))).
Defined.

(** C8 at an identifier the decoder refuses. *)
Lemma undecodable_peer_rejected_example :
  exampleDecode "12D3" = inr (errors_New "failed to parse peer ID")
  /\ (NetStat exampleDecode examplePretty exampleManager "peer:12D3"
        = (exampleManager, NetStatOut_zero,
           Some (Errorf_invalid_peer_ID "12D3" (errors_New "failed to parse peer ID")))
      /\ NetLimit exampleDecode exampleManager "peer:12D3"
        = (exampleManager, config.zero,
           Some (Errorf_invalid_peer_ID "12D3" (errors_New "failed to parse peer ID")))
      /\ NetSetLimit exampleDecode exampleManager "peer:12D3" exampleStatic
        = (exampleManager,
           Some (Errorf_invalid_peer_ID "12D3" (errors_New "failed to parse peer ID"))))
  /\ (calls (NetStat exampleDecode examplePretty exampleRecording "peer:12D3").1.1
        = calls exampleRecording
      /\ calls (NetLimit exampleDecode exampleRecording "peer:12D3").1.1
        = calls exampleRecording
      /\ calls (NetSetLimit exampleDecode exampleRecording "peer:12D3" exampleStatic).1
        = calls exampleRecording).
Proof.
  split; [reflexivity|].
  exact (undecodable_peer_rejected exampleDecode examplePretty exampleManager
           exampleRecording "12D3" (errors_New "failed to parse peer ID")
           exampleStatic eq_refl).
Defined.

(** C10 at the address of the service scope. *)
Lemma NetStat_single_scope_example :
  "svc:identify" <> "all"
  /\ NetStat exampleDecode examplePretty exampleManager "svc:identify"
     = (exampleManager,
        {| System := None; Transient := None;
           Services := Some {[ "identify" := rcmgr.stat exampleIdentify ]};
           Protocols := None; Peers := None |},
        None)
  /\ setsOneField exampleDecode "svc:identify"
       {| System := None; Transient := None;
          Services := Some {[ "identify" := rcmgr.stat exampleIdentify ]};
          Protocols := None; Peers := None |}.
Proof.
  assert (Hall : "svc:identify" <> "all") by discriminate.
  assert (Hstat :
    NetStat exampleDecode examplePretty exampleManager "svc:identify"
    = (exampleManager,
       {| System := None; Transient := None;
          Services := Some {[ "identify" := rcmgr.stat exampleIdentify ]};
          Protocols := None; Peers := None |},
       None)) by (vm_compute; reflexivity).
  split; [exact Hall|]. split; [exact Hstat|].
  exact (NetStat_single_scope_sets_one_field exampleDecode examplePretty
           exampleManager exampleManager "svc:identify" _ Hall Hstat).
Defined.

(** * Further properties of [rcmgr.go] *)

(** ** Which scope an address names *)

(** The scopes of the real manager.  Two address strings may name the same
    scope: two spellings that [peer.Decode] maps to one identifier. *)
Inductive scopeKey : Type :=
| keySystem
| keyTransient
| keyService (name : string)
| keyProtocol (id : protocol.ID)
| keyPeer (pid : peer.ID).

#[export] Instance scopeKey_eq_dec : EqDecision scopeKey.
Proof. unfold protocol.ID, peer.ID. solve_decision. Defined.

(** The scope of a key: the one the manager holds, or the one its first
    view creates. *)
Definition scopeOf (m : rcmgr.resourceManager) (k : scopeKey) : rcmgr.resourceScope :=
  match k with
  | keySystem => rcmgr.system m
  | keyTransient => rcmgr.transient m
  | keyService name => (rcmgr.getServiceScope m name).2
  | keyProtocol id => (rcmgr.getProtocolScope m id).2
  | keyPeer pid => (rcmgr.getPeerScope m pid).2
  end.

Definition putScope (m : rcmgr.resourceManager) (k : scopeKey) (s : rcmgr.resourceScope)
  : rcmgr.resourceManager :=
  match k with
  | keySystem => rcmgr.putSystem m s
  | keyTransient => rcmgr.putTransient m s
  | keyService name => rcmgr.putService m name s
  | keyProtocol id => rcmgr.putProtocol m id s
  | keyPeer pid => rcmgr.putPeer m pid s
  end.

(** Whether the manager already holds the scope of a key. *)
Definition held (m : rcmgr.resourceManager) (k : scopeKey) : Prop :=
  match k with
  | keySystem | keyTransient => True
  | keyService name => is_Some (rcmgr.svc m !! name)
  | keyProtocol id => is_Some (rcmgr.proto m !! id)
  | keyPeer pid => is_Some (rcmgr.peer m !! pid)
  end.

Section Keys.

Variable peer_Decode : string -> peer.ID + error.

(** The key of an address, by the cases of the three switches. *)
Definition addressKey (scope : string) : option scopeKey :=
  if String.eqb scope "system" then Some keySystem
  else if String.eqb scope "transient" then Some keyTransient
  else if String.prefix "svc:" scope then Some (keyService (slice_from 4 scope))
  else if String.prefix "proto:" scope then Some (keyProtocol (slice_from 6 scope))
  else if String.prefix "peer:" scope then
    match peer_Decode (slice_from 5 scope) with
    | inl pid => Some (keyPeer pid)
    | inr _ => None
    end
  else None.

(** The error the three switches return for an address without a key. *)
Definition addressError (scope : string) : error :=
  if String.prefix "peer:" scope then
    match peer_Decode (slice_from 5 scope) with
    | inr err => Errorf_invalid_peer_ID (slice_from 5 scope) err
    | inl _ => Errorf_invalid_scope scope
    end
  else Errorf_invalid_scope scope.

(** What [NetStat] reports on an address other than [all] for a scope with
    the usage [st]. *)
Definition statField (scope : string) (st : network.ScopeStat) : NetStatOut :=
  if String.eqb scope "system" then set_System NetStatOut_zero (Some st)
  else if String.eqb scope "transient" then set_Transient NetStatOut_zero (Some st)
  else if String.prefix "svc:" scope then
    set_Services NetStatOut_zero (Some {[ slice_from 4 scope := st ]})
  else if String.prefix "proto:" scope then
    set_Protocols NetStatOut_zero (Some {[ slice_from 6 scope := st ]})
  else set_Peers NetStatOut_zero (Some {[ slice_from 5 scope := st ]}).

End Keys.

Section KeyLemmas.

Variable peer_Decode : string -> peer.ID + error.
Variable peer_Pretty : peer.ID -> string.

Lemma addressKey_inv (scope : string) (k : scopeKey) :
  addressKey peer_Decode scope = Some k ->
  (scope = "system" /\ k = keySystem)
  \/ (scope = "transient" /\ k = keyTransient)
  \/ (exists name, scope = String.append "svc:" name /\ k = keyService name)
  \/ (exists id, scope = String.append "proto:" id /\ k = keyProtocol id)
  \/ (exists p pid, scope = String.append "peer:" p
                    /\ peer_Decode p = inl pid /\ k = keyPeer pid).
Proof.
  unfold addressKey.
  destruct (String.eqb_spec scope "system") as [->|_]; [intros [= <-]; auto|].
  destruct (String.eqb_spec scope "transient") as [->|_]; [intros [= <-]; auto|].
  destruct (String.prefix "svc:" scope) eqn:Esvc.
  { intros [= <-]. right; right; left. eexists. split; [|reflexivity].
    exact (prefix_slice _ _ Esvc). }
  destruct (String.prefix "proto:" scope) eqn:Eproto.
  { intros [= <-]. right; right; right; left. eexists. split; [|reflexivity].
    exact (prefix_slice _ _ Eproto). }
  destruct (String.prefix "peer:" scope) eqn:Epeer; [|discriminate].
  destruct (peer_Decode (slice_from 5 scope)) as [pid|err] eqn:Edecode; [|discriminate].
  intros [= <-]. right; right; right; right. exists (slice_from 5 scope), pid.
  split; [exact (prefix_slice _ _ Epeer)|]. split; [exact Edecode|reflexivity].
Qed.

Lemma addressKey_valid (scope : string) :
  is_Some (addressKey peer_Decode scope) <-> validAddress peer_Decode scope.
Proof.
  split.
  - intros [k Hk]. apply addressKey_inv in Hk.
    destruct Hk as [[-> _]|[[-> _]|[(name & -> & _)|[(id & -> & _)|(p & pid & -> & Hd & _)]]]];
      econstructor; eassumption.
  - intros [| |name|id|p pid Hdecode]; unfold addressKey; spell_out; cbn;
      rewrite ?prefix_nil; try rewrite Hdecode; eexists; reflexivity.
Qed.

Lemma scopeAt_key (m : rcmgr.resourceManager) (scope : string) :
  scopeAt peer_Decode m scope = scopeOf m <$> addressKey peer_Decode scope.
Proof.
  unfold scopeAt, addressKey.
  repeat match goal with
         | |- context [if ?c then _ else _] => destruct c
         end; try reflexivity.
  destruct (peer_Decode _); reflexivity.
Qed.

(** The views of the real manager, by key. *)
Lemma NetSetLimit_key (m : rcmgr.resourceManager) (scope : string) (k : scopeKey)
  (L : config.ResourceMgrScopeConfig) :
  addressKey peer_Decode scope = Some k ->
  NetSetLimit peer_Decode m scope L
  = (putScope m k (rcmgr.SetLimit (scopeOf m k) (newLimit L)), None).
Proof.
  intros Hk. apply addressKey_inv in Hk.
  destruct Hk as [[-> ->]|[[-> ->]|[(name & -> & ->)|[(id & -> & ->)|(p & pid & -> & Hd & ->)]]]].
  - rewrite (proj2 (proj2 (dispatch_system peer_Decode (fun q : peer.ID => q) _ L))).
    rewrite rcmgr_ViewSystem, scopeView_setLimit. reflexivity.
  - rewrite (proj2 (proj2 (dispatch_transient peer_Decode (fun q : peer.ID => q) _ L))).
    rewrite rcmgr_ViewTransient, scopeView_setLimit. reflexivity.
  - rewrite (proj2 (proj2 (dispatch_service peer_Decode (fun q : peer.ID => q) _ name L))).
    rewrite rcmgr_ViewService, scopeView_setLimit. reflexivity.
  - rewrite (proj2 (proj2 (dispatch_protocol peer_Decode (fun q : peer.ID => q) _ id L))).
    rewrite rcmgr_ViewProtocol, scopeView_setLimit. reflexivity.
  - rewrite (proj2 (proj2 (dispatch_peer peer_Decode (fun q : peer.ID => q) _ p pid L Hd))).
    rewrite rcmgr_ViewPeer, scopeView_setLimit. reflexivity.
Qed.

Lemma NetLimit_key (m : rcmgr.resourceManager) (scope : string) (k : scopeKey) :
  addressKey peer_Decode scope = Some k ->
  NetLimit peer_Decode m scope
  = (putScope m k (scopeOf m k),
     (limitConfig (rcmgr.limit (scopeOf m k))).1,
     (limitConfig (rcmgr.limit (scopeOf m k))).2).
Proof.
  intros Hk. apply addressKey_inv in Hk.
  destruct Hk as [[-> ->]|[[-> ->]|[(name & -> & ->)|[(id & -> & ->)|(p & pid & -> & Hd & ->)]]]].
  - rewrite (proj1 (proj2 (dispatch_system peer_Decode (fun q : peer.ID => q) _ config.zero))).
    rewrite rcmgr_ViewSystem, scopeView_getLimit. reflexivity.
  - rewrite (proj1 (proj2 (dispatch_transient peer_Decode (fun q : peer.ID => q) _ config.zero))).
    rewrite rcmgr_ViewTransient, scopeView_getLimit. reflexivity.
  - rewrite (proj1 (proj2 (dispatch_service peer_Decode (fun q : peer.ID => q) _ name config.zero))).
    rewrite rcmgr_ViewService, scopeView_getLimit. reflexivity.
  - rewrite (proj1 (proj2 (dispatch_protocol peer_Decode (fun q : peer.ID => q) _ id config.zero))).
    rewrite rcmgr_ViewProtocol, scopeView_getLimit. reflexivity.
  - rewrite (proj1 (proj2 (dispatch_peer peer_Decode (fun q : peer.ID => q) _ p pid config.zero Hd))).
    rewrite rcmgr_ViewPeer, scopeView_getLimit. reflexivity.
Qed.

Lemma NetStat_key (m : rcmgr.resourceManager) (scope : string) (k : scopeKey) :
  addressKey peer_Decode scope = Some k ->
  NetStat peer_Decode peer_Pretty m scope
  = (putScope m k (scopeOf m k), statField scope (rcmgr.stat (scopeOf m k)), None).
Proof.
  intros Hk. apply addressKey_inv in Hk.
  destruct Hk as [[-> ->]|[[-> ->]|[(name & -> & ->)|[(id & -> & ->)|(p & pid & -> & Hd & ->)]]]].
  - rewrite (proj1 (dispatch_system peer_Decode peer_Pretty _ config.zero)).
    rewrite rcmgr_ViewSystem. reflexivity.
  - rewrite (proj1 (dispatch_transient peer_Decode peer_Pretty _ config.zero)).
    rewrite rcmgr_ViewTransient. reflexivity.
  - rewrite (proj1 (dispatch_service peer_Decode peer_Pretty _ name config.zero)).
    rewrite rcmgr_ViewService. unfold statField. spell_out. cbn.
    rewrite prefix_nil. reflexivity.
  - rewrite (proj1 (dispatch_protocol peer_Decode peer_Pretty _ id config.zero)).
    rewrite rcmgr_ViewProtocol. unfold statField. spell_out. cbn.
    rewrite prefix_nil. reflexivity.
  - rewrite (proj1 (dispatch_peer peer_Decode peer_Pretty _ p pid config.zero Hd)).
    rewrite rcmgr_ViewPeer. unfold statField. spell_out. cbn. reflexivity.
Qed.

Lemma NetSetLimit_no_key {M : Type} `{!network_rcmgr.ResourceManager M}
  (mgr : M) (scope : string) (L : config.ResourceMgrScopeConfig) :
  addressKey peer_Decode scope = None ->
  NetSetLimit peer_Decode mgr scope L = (mgr, Some (addressError peer_Decode scope)).
Proof.
  unfold addressKey, addressError, NetSetLimit,
    config.ResourceMgrSystemScope, config.ResourceMgrTransientScope,
    config.ResourceMgrServiceScopePrefix, config.ResourceMgrProtocolScopePrefix,
    config.ResourceMgrPeerScopePrefix.
  destruct (String.eqb scope "system"); [discriminate|].
  destruct (String.eqb scope "transient"); [discriminate|].
  destruct (String.prefix "svc:" scope); [discriminate|].
  destruct (String.prefix "proto:" scope); [discriminate|].
  destruct (String.prefix "peer:" scope); [|reflexivity].
  destruct (peer_Decode (slice_from 5 scope)); [discriminate|reflexivity].
Qed.

Lemma NetLimit_no_key {M : Type} `{!network_rcmgr.ResourceManager M}
  (mgr : M) (scope : string) :
  addressKey peer_Decode scope = None ->
  NetLimit peer_Decode mgr scope
  = (mgr, config.zero, Some (addressError peer_Decode scope)).
Proof.
  unfold addressKey, addressError, NetLimit,
    config.ResourceMgrSystemScope, config.ResourceMgrTransientScope,
    config.ResourceMgrServiceScopePrefix, config.ResourceMgrProtocolScopePrefix,
    config.ResourceMgrPeerScopePrefix.
  destruct (String.eqb scope "system"); [discriminate|].
  destruct (String.eqb scope "transient"); [discriminate|].
  destruct (String.prefix "svc:" scope); [discriminate|].
  destruct (String.prefix "proto:" scope); [discriminate|].
  destruct (String.prefix "peer:" scope); [|reflexivity].
  destruct (peer_Decode (slice_from 5 scope)); [discriminate|reflexivity].
Qed.

Lemma NetStat_no_key {M : Type} `{!network_rcmgr.ResourceManager M}
  (mgr : M) (scope : string) :
  scope <> "all" ->
  addressKey peer_Decode scope = None ->
  NetStat peer_Decode peer_Pretty mgr scope
  = (mgr, NetStatOut_zero, Some (addressError peer_Decode scope)).
Proof.
  intros Hall. unfold addressKey, addressError, NetStat,
    config.ResourceMgrSystemScope, config.ResourceMgrTransientScope,
    config.ResourceMgrServiceScopePrefix, config.ResourceMgrProtocolScopePrefix,
    config.ResourceMgrPeerScopePrefix.
  not_this_scope Hall.
  destruct (String.eqb scope "system"); [discriminate|].
  destruct (String.eqb scope "transient"); [discriminate|].
  destruct (String.prefix "svc:" scope); [discriminate|].
  destruct (String.prefix "proto:" scope); [discriminate|].
  destruct (String.prefix "peer:" scope); [|reflexivity].
  destruct (peer_Decode (slice_from 5 scope)); [discriminate|reflexivity].
Qed.

End KeyLemmas.

(** *** The scopes of a manager after [putScope] *)

Lemma scopeOf_putScope (m : rcmgr.resourceManager) (k : scopeKey)
  (s : rcmgr.resourceScope) :
  scopeOf (putScope m k s) k = s.
Proof.
  destruct k as [| |name|id|pid]; try reflexivity; cbn.
  - apply getServiceScope_put.
  - apply getProtocolScope_put.
  - apply getPeerScope_put.
Qed.

Lemma getScope_snd (m : rcmgr.resourceManager) :
  (forall name,
      (rcmgr.getServiceScope m name).2
      = default (rcmgr.newScope (rcmgr.GetServiceLimits (rcmgr.limits m) name))
          (rcmgr.svc m !! name))
  /\ (forall id,
        (rcmgr.getProtocolScope m id).2
        = default (rcmgr.newScope (rcmgr.GetProtocolLimits (rcmgr.limits m) id))
            (rcmgr.proto m !! id))
  /\ (forall pid,
        (rcmgr.getPeerScope m pid).2
        = default (rcmgr.newScope (rcmgr.GetPeerLimits (rcmgr.limits m) pid))
            (rcmgr.peer m !! pid)).
Proof.
  repeat split; intros x.
  - unfold rcmgr.getServiceScope. destruct (rcmgr.svc m !! x); reflexivity.
  - unfold rcmgr.getProtocolScope. destruct (rcmgr.proto m !! x); reflexivity.
  - unfold rcmgr.getPeerScope. destruct (rcmgr.peer m !! x); reflexivity.
Qed.

Lemma scopeOf_putScope_ne (m : rcmgr.resourceManager) (k k' : scopeKey)
  (s : rcmgr.resourceScope) :
  k <> k' -> scopeOf (putScope m k s) k' = scopeOf m k'.
Proof.
  intros Hne.
  destruct (getScope_snd m) as (Hs & Hp & He).
  destruct (getScope_snd (putScope m k s)) as (Hs' & Hp' & He').
  destruct k as [| |name|id|pid], k' as [| |name'|id'|pid'];
    try congruence; unfold scopeOf; rewrite ?Hs, ?Hp, ?He, ?Hs', ?Hp', ?He';
    try reflexivity; cbn [putScope rcmgr.putService rcmgr.putProtocol rcmgr.putPeer
                          rcmgr.svc rcmgr.proto rcmgr.peer rcmgr.limits];
    rewrite lookup_insert_ne by congruence; reflexivity.
Qed.

Lemma putScope_held (m : rcmgr.resourceManager) (k : scopeKey) :
  held m k -> putScope m k (scopeOf m k) = m.
Proof.
  destruct m as [l sy tr sv pr pe].
  destruct k as [| |name|id|pid]; cbn; try reflexivity.
  - intros [s Hs]. unfold rcmgr.getServiceScope, rcmgr.putService; cbn.
    rewrite Hs; cbn. rewrite insert_id by exact Hs. reflexivity.
  - intros [s Hs]. unfold rcmgr.getProtocolScope, rcmgr.putProtocol; cbn.
    rewrite Hs; cbn. rewrite insert_id by exact Hs. reflexivity.
  - intros [s Hs]. unfold rcmgr.getPeerScope, rcmgr.putPeer; cbn.
    rewrite Hs; cbn. rewrite insert_id by exact Hs. reflexivity.
Qed.

Lemma held_putScope (m : rcmgr.resourceManager) (k : scopeKey)
  (s : rcmgr.resourceScope) :
  held (putScope m k s) k.
Proof.
  destruct k as [| |name|id|pid]; cbn; try exact I;
    rewrite lookup_insert_eq; eexists; reflexivity.
Qed.

Lemma held_putScope_other (m : rcmgr.resourceManager) (k k' : scopeKey)
  (s : rcmgr.resourceScope) :
  held m k -> held (putScope m k' s) k.
Proof.
  destruct k as [| |name|id|pid], k' as [| |name'|id'|pid']; cbn; auto;
    intros [s0 Hs0].
  - destruct (decide (name' = name)) as [->|Hne];
      [rewrite lookup_insert_eq|rewrite lookup_insert_ne by exact Hne]; eauto.
  - destruct (decide (id' = id)) as [->|Hne];
      [rewrite lookup_insert_eq|rewrite lookup_insert_ne by exact Hne]; eauto.
  - destruct (decide (pid' = pid)) as [->|Hne];
      [rewrite lookup_insert_eq|rewrite lookup_insert_ne by exact Hne]; eauto.
Qed.

(** [Stat] of the manager does not see a change of limit on a scope it
    holds. *)
Lemma Stat_SetLimit_held (m : rcmgr.resourceManager) (k : scopeKey) (l : rcmgr.Limit) :
  held m k ->
  rcmgr.Stat (putScope m k (rcmgr.SetLimit (scopeOf m k) l)) = rcmgr.Stat m.
Proof.
  destruct (getScope_snd m) as (Hs & Hp & He).
  destruct m as [li sy tr sv pr pe].
  destruct k as [| |name|id|pid]; cbn [held]; unfold scopeOf; try reflexivity.
  - intros [s Hk]. rewrite Hs. cbn in Hk |- *. rewrite Hk. cbn.
    unfold rcmgr.Stat; cbn. f_equal.
    rewrite fmap_insert. apply insert_id. rewrite lookup_fmap, Hk. reflexivity.
  - intros [s Hk]. rewrite Hp. cbn in Hk |- *. rewrite Hk. cbn.
    unfold rcmgr.Stat; cbn. f_equal.
    rewrite fmap_insert. apply insert_id. rewrite lookup_fmap, Hk. reflexivity.
  - intros [s Hk]. rewrite He. cbn in Hk |- *. rewrite Hk. cbn.
    unfold rcmgr.Stat; cbn. f_equal.
    rewrite fmap_insert. apply insert_id. rewrite lookup_fmap, Hk. reflexivity.
Qed.

Section Administration.

Variable peer_Decode : string -> peer.ID + error.
Variable peer_Pretty : peer.ID -> string.

(** X1: [NetSetLimit] on one scope leaves the limit of every other scope
    as it was: [NetLimit] on an address that names another scope (or none)
    returns the same configuration and the same error before and after. *)
Theorem NetSetLimit_leaves_other_limits (m : rcmgr.resourceManager) (a b : string)
  (L : config.ResourceMgrScopeConfig) :
  addressKey peer_Decode a <> addressKey peer_Decode b ->
  (NetLimit peer_Decode (NetSetLimit peer_Decode m a L).1 b).1.2
    = (NetLimit peer_Decode m b).1.2
  /\ (NetLimit peer_Decode (NetSetLimit peer_Decode m a L).1 b).2
    = (NetLimit peer_Decode m b).2.
Proof.
  intros Hne.
  destruct (addressKey peer_Decode b) as [kb|] eqn:Eb.
  - destruct (addressKey peer_Decode a) as [ka|] eqn:Ea.
    + rewrite (NetSetLimit_key peer_Decode m a ka L Ea).
      rewrite !(NetLimit_key peer_Decode _ b kb Eb). cbn [fst snd].
      rewrite scopeOf_putScope_ne by congruence. split; reflexivity.
    + rewrite (NetSetLimit_no_key peer_Decode m a L Ea).
      split; reflexivity.
  - rewrite !(NetLimit_no_key peer_Decode _ b Eb). split; reflexivity.
Qed.

(** X2: the round trip goes through aliases: a limit set through one
    address is read back through every address that names the same scope. *)
Theorem NetSetLimit_then_NetLimit_alias (m : rcmgr.resourceManager) (a b : string)
  (k : scopeKey) (L : config.ResourceMgrScopeConfig) :
  addressKey peer_Decode a = Some k ->
  addressKey peer_Decode b = Some k ->
  NetLimit peer_Decode (NetSetLimit peer_Decode m a L).1 b
  = ((NetSetLimit peer_Decode m a L).1, readBack L, None).
Proof.
  intros Ea Eb.
  rewrite (NetSetLimit_key peer_Decode m a k L Ea). cbn [fst].
  rewrite (NetLimit_key peer_Decode _ b k Eb).
  rewrite scopeOf_putScope. cbn [rcmgr.SetLimit rcmgr.limit].
  rewrite limitConfig_newLimit. cbn [fst snd].
  rewrite <- (scopeOf_putScope m k {| rcmgr.stat := rcmgr.stat (scopeOf m k);
                                      rcmgr.limit := newLimit L |}) at 2.
  rewrite putScope_held by apply held_putScope. reflexivity.
Qed.

(** X3: [NetSetLimit] changes no usage: on every address other than [all],
    [NetStat] reports the same before and after a [NetSetLimit] on any
    address with any configuration, also one that lowers a limit below the
    current usage. *)
Theorem NetSetLimit_leaves_usage (m : rcmgr.resourceManager) (a b : string)
  (L : config.ResourceMgrScopeConfig) :
  b <> "all" ->
  (NetStat peer_Decode peer_Pretty (NetSetLimit peer_Decode m a L).1 b).1.2
    = (NetStat peer_Decode peer_Pretty m b).1.2
  /\ (NetStat peer_Decode peer_Pretty (NetSetLimit peer_Decode m a L).1 b).2
    = (NetStat peer_Decode peer_Pretty m b).2.
Proof.
  intros Hall.
  destruct (addressKey peer_Decode b) as [kb|] eqn:Eb.
  - rewrite !(NetStat_key peer_Decode peer_Pretty _ b kb Eb). cbn [fst snd].
    destruct (addressKey peer_Decode a) as [ka|] eqn:Ea.
    + rewrite (NetSetLimit_key peer_Decode m a ka L Ea). cbn [fst].
      destruct (decide (ka = kb)) as [->|Hne].
      * rewrite scopeOf_putScope. split; reflexivity.
      * rewrite scopeOf_putScope_ne by exact Hne. split; reflexivity.
    + rewrite (NetSetLimit_no_key peer_Decode m a L Ea).
      split; reflexivity.
  - rewrite !(NetStat_no_key peer_Decode peer_Pretty _ b Hall Eb). split; reflexivity.
Qed.

(** X4: on a scope the manager already holds, [NetSetLimit] does not change
    what [NetStat] with scope [all] reports either. *)
Theorem NetSetLimit_leaves_aggregate (m : rcmgr.resourceManager) (a : string)
  (k : scopeKey) (L : config.ResourceMgrScopeConfig) :
  addressKey peer_Decode a = Some k ->
  held m k ->
  (NetStat peer_Decode peer_Pretty (NetSetLimit peer_Decode m a L).1 "all").1.2
  = (NetStat peer_Decode peer_Pretty m "all").1.2.
Proof.
  intros Ea Hheld.
  rewrite (NetSetLimit_key peer_Decode m a k L Ea). cbn [fst].
  unfold NetStat. rewrite String.eqb_refl.
  cbn [ResourceManagerState resourceManager_impl].
  rewrite (Stat_SetLimit_held m k (newLimit L) Hheld). reflexivity.
Qed.

Lemma addressKey_forms :
  addressKey peer_Decode "system" = Some keySystem
  /\ addressKey peer_Decode "transient" = Some keyTransient
  /\ (forall name, addressKey peer_Decode (String.append "svc:" name)
                   = Some (keyService name))
  /\ (forall id, addressKey peer_Decode (String.append "proto:" id)
                 = Some (keyProtocol id))
  /\ (forall p pid, peer_Decode p = inl pid ->
                    addressKey peer_Decode (String.append "peer:" p)
                    = Some (keyPeer pid)).
Proof.
  repeat split; intros; unfold addressKey; spell_out; cbn;
    rewrite ?prefix_nil; try reflexivity.
  match goal with H : peer_Decode _ = _ |- _ => rewrite H end. reflexivity.
Qed.

(** What [NetStat] with scope [all] returns on the real manager. *)
Lemma NetStat_all_rcmgr (m : rcmgr.resourceManager) :
  NetStat peer_Decode peer_Pretty m "all"
  = (m,
     {| System := Some (rcmgr.stat (rcmgr.system m));
        Transient := Some (rcmgr.stat (rcmgr.transient m));
        Services :=
          if nonempty (rcmgr.stat <$> rcmgr.svc m)
          then Some (rcmgr.stat <$> rcmgr.svc m) else None;
        Protocols :=
          if nonempty (rcmgr.stat <$> rcmgr.proto m)
          then Some (rcmgr.stat <$> rcmgr.proto m) else None;
        Peers :=
          if nonempty (rcmgr.stat <$> rcmgr.peer m)
          then Some (rekey peer_Pretty (rcmgr.stat <$> rcmgr.peer m)) else None |},
     None).
Proof.
  unfold NetStat. rewrite String.eqb_refl.
  cbn [ResourceManagerState resourceManager_impl]. cbv zeta.
  unfold rcmgr.Stat;
    cbn [rcmgr.System rcmgr.Transient rcmgr.Services rcmgr.Protocols rcmgr.Peers].
  rewrite rekey_same.
  destruct (nonempty (rcmgr.stat <$> rcmgr.svc m));
    destruct (nonempty (rcmgr.stat <$> rcmgr.proto m));
    destruct (nonempty (rcmgr.stat <$> rcmgr.peer m)); reflexivity.
Qed.

(** X5: a view is not free of effects.  On a service the manager holds no
    scope for, [NetStat] reports zero usage and creates the scope: the
    aggregate stat, which did not list the service, lists it afterwards,
    with the limit the limiter gives services of that name. *)
Theorem first_view_creates_service_scope (m : rcmgr.resourceManager) (name : string) :
  rcmgr.svc m !! name = None ->
  let r := NetStat peer_Decode peer_Pretty m (String.append "svc:" name) in
  r.1.2 = {| System := None; Transient := None;
             Services := Some {[ name := network.zero ]};
             Protocols := None; Peers := None |}
  /\ r.2 = None
  /\ rcmgr.Services (rcmgr.Stat m) !! name = None
  /\ rcmgr.Services (rcmgr.Stat r.1.1) !! name = Some network.zero
  /\ NetLimit peer_Decode r.1.1 (String.append "svc:" name)
     = (r.1.1,
        (limitConfig (rcmgr.GetServiceLimits (rcmgr.limits m) name)).1,
        (limitConfig (rcmgr.GetServiceLimits (rcmgr.limits m) name)).2).
Proof.
  intros Hnone. cbv zeta.
  destruct addressKey_forms as (_ & _ & Hsvc & _).
  rewrite (NetStat_key peer_Decode peer_Pretty m _ _ (Hsvc name)).
  cbn [fst snd].
  rewrite (NetLimit_key peer_Decode _ _ _ (Hsvc name)).
  rewrite (putScope_held (putScope m (keyService name) (scopeOf m (keyService name))))
    by apply held_putScope.
  rewrite scopeOf_putScope.
  destruct (getScope_snd m) as (Hs & _ & _).
  cbn [scopeOf]. rewrite Hs, Hnone. cbn [default rcmgr.newScope rcmgr.stat rcmgr.limit].
  split; [|split; [reflexivity|split; [|split; [|reflexivity]]]].
  - unfold statField. spell_out. cbn. rewrite prefix_nil. reflexivity.
  - unfold rcmgr.Stat; cbn. rewrite lookup_fmap, Hnone. reflexivity.
  - unfold rcmgr.Stat; cbn. rewrite lookup_fmap, lookup_insert_eq. reflexivity.
Qed.

(** X6: the two ways of asking agree for services and protocols: an entry
    that [NetStat] with scope [all] lists under a name is what [NetStat]
    returns, alone, for the [svc:] (or [proto:]) address of that name,
    without changing the manager. *)
Theorem NetStat_single_agrees_with_all (m : rcmgr.resourceManager)
  (name : string) (st : network.ScopeStat) :
  (forall listed,
      Services (NetStat peer_Decode peer_Pretty m "all").1.2 = Some listed ->
      listed !! name = Some st ->
      NetStat peer_Decode peer_Pretty m (String.append "svc:" name)
      = (m, {| System := None; Transient := None;
               Services := Some {[ name := st ]};
               Protocols := None; Peers := None |}, None))
  /\ (forall listed,
        Protocols (NetStat peer_Decode peer_Pretty m "all").1.2 = Some listed ->
        listed !! name = Some st ->
        NetStat peer_Decode peer_Pretty m (String.append "proto:" name)
        = (m, {| System := None; Transient := None; Services := None;
                 Protocols := Some {[ name := st ]}; Peers := None |}, None)).
Proof.
  destruct addressKey_forms as (_ & _ & Hsvc & Hproto & _).
  destruct (getScope_snd m) as (Hs & Hp & _).
  rewrite NetStat_all_rcmgr. cbn [fst snd Services Protocols].
  split; intros listed.
  - destruct (nonempty (rcmgr.stat <$> rcmgr.svc m)); [|intros [=]].
    intros [= <-] Hname. rewrite lookup_fmap in Hname.
    destruct (rcmgr.svc m !! name) as [s|] eqn:Hk; [|discriminate].
    injection Hname as <-.
    rewrite (NetStat_key peer_Decode peer_Pretty m _ _ (Hsvc name)).
    rewrite putScope_held by (cbn; rewrite Hk; eauto).
    cbn [scopeOf]. rewrite Hs, Hk. cbn [default].
    unfold statField. spell_out. cbn. rewrite prefix_nil. reflexivity.
  - destruct (nonempty (rcmgr.stat <$> rcmgr.proto m)); [|intros [=]].
    intros [= <-] Hname. rewrite lookup_fmap in Hname.
    match type of Hname with
    | _ <$> ?t = _ => destruct t as [s|] eqn:Hk; [|discriminate]
    end.
    injection Hname as <-.
    rewrite (NetStat_key peer_Decode peer_Pretty m _ _ (Hproto name)).
    rewrite putScope_held by (exists s; exact Hk).
    cbn [scopeOf]. rewrite Hp. unfold protocol.ID in *. rewrite Hk. cbn [default].
    unfold statField. spell_out. cbn. rewrite prefix_nil. reflexivity.
Qed.

(** X7: under a [Pretty] that gives different identifiers different
    texts, the [Peers] map of [NetStat] with scope [all] lists every peer
    scope under the text of its identifier and nothing else; asking for one
    of them through a [peer:] address returns its usage under the address
    suffix as it was typed, which need not be that text. *)
Theorem NetStat_all_lists_peers_by_Pretty (m : rcmgr.resourceManager)
  (listed : gmap string network.ScopeStat) :
  (forall p q, peer_Pretty p = peer_Pretty q -> p = q) ->
  Peers (NetStat peer_Decode peer_Pretty m "all").1.2 = Some listed ->
  (forall pid, listed !! peer_Pretty pid = rcmgr.stat <$> rcmgr.peer m !! pid)
  /\ (forall key st,
        listed !! key = Some st ->
        exists pid, key = peer_Pretty pid
                    /\ rcmgr.stat <$> rcmgr.peer m !! pid = Some st)
  /\ (forall p pid st,
        peer_Decode p = inl pid ->
        listed !! peer_Pretty pid = Some st ->
        NetStat peer_Decode peer_Pretty m (String.append "peer:" p)
        = (m, {| System := None; Transient := None; Services := None;
                 Protocols := None; Peers := Some {[ p := st ]} |}, None)).
Proof.
  intros Hinj. rewrite NetStat_all_rcmgr. cbn [fst snd Peers].
  destruct (nonempty (rcmgr.stat <$> rcmgr.peer m)); [|intros [=]].
  intros [= <-].
  assert (Hlookup : forall pid,
             rekey peer_Pretty (rcmgr.stat <$> rcmgr.peer m) !! peer_Pretty pid
             = rcmgr.stat <$> rcmgr.peer m !! pid).
  { intros pid. rewrite (rekey_lookup peer_Pretty _ Hinj). apply lookup_fmap. }
  split; [exact Hlookup|]. split.
  - intros key st Hkey.
    destruct (rekey_from peer_Pretty _ key st Hkey) as (pid & <- & Hpid).
    exists pid. split; [reflexivity|]. rewrite <- Hpid. symmetry. apply lookup_fmap.
  - intros p pid st Hdecode Hst. rewrite Hlookup in Hst.
    destruct (rcmgr.peer m !! pid) as [s|] eqn:Hk; [|discriminate].
    injection Hst as <-.
    destruct addressKey_forms as (_ & _ & _ & _ & Hpeer).
    rewrite (NetStat_key peer_Decode peer_Pretty m _ _ (Hpeer p pid Hdecode)).
    rewrite putScope_held by (exists s; exact Hk).
    destruct (getScope_snd m) as (_ & _ & He).
    cbn [scopeOf]. rewrite He. unfold peer.ID in *. rewrite Hk. cbn [default].
    unfold statField. spell_out. cbn. reflexivity.
Qed.

End Administration.

(** * The metrics reporter *)

(** ** The methods of the reporter *)

(** Each returns the reporter after the call, or [None] when
    [WithLabelValues] panics. *)
Definition AllowConn (r : rcmgrMetrics) (dir : network.Direction) (usefd : bool) : option rcmgrMetrics :=
  c ← prometheus.IncWithLabelValues (connAllowed r) (getDirection dir :: FormatBool usefd :: nil);
  Some (set_connAllowed r c).

Definition BlockConn (r : rcmgrMetrics) (dir : network.Direction) (usefd : bool) : option rcmgrMetrics :=
  c ← prometheus.IncWithLabelValues (connBlocked r) (getDirection dir :: FormatBool usefd :: nil);
  Some (set_connBlocked r c).

Definition AllowStream (r : rcmgrMetrics) (_ : peer.ID) (dir : network.Direction) : option rcmgrMetrics :=
  c ← prometheus.IncWithLabelValues (streamAllowed r) (getDirection dir :: nil);
  Some (set_streamAllowed r c).

Definition BlockStream (r : rcmgrMetrics) (_ : peer.ID) (dir : network.Direction) : option rcmgrMetrics :=
  c ← prometheus.IncWithLabelValues (streamBlocked r) (getDirection dir :: nil);
  Some (set_streamBlocked r c).

Definition AllowPeer (r : rcmgrMetrics) (_ : peer.ID) : option rcmgrMetrics :=
  Some (set_peerAllowed r (prometheus.Inc (peerAllowed r))).

Definition BlockPeer (r : rcmgrMetrics) (_ : peer.ID) : option rcmgrMetrics :=
  Some (set_peerBlocked r (prometheus.Inc (peerBlocked r))).

Definition AllowProtocol (r : rcmgrMetrics) (proto : protocol.ID) : option rcmgrMetrics :=
  c ← prometheus.IncWithLabelValues (protocolAllowed r) (proto :: nil);
  Some (set_protocolAllowed r c).

Definition BlockProtocol (r : rcmgrMetrics) (proto : protocol.ID) : option rcmgrMetrics :=
  c ← prometheus.IncWithLabelValues (protocolBlocked r) (proto :: nil);
  Some (set_protocolBlocked r c).

Definition BlockProtocolPeer (r : rcmgrMetrics) (proto : protocol.ID) (_ : peer.ID) : option rcmgrMetrics :=
  c ← prometheus.IncWithLabelValues (protocolPeerBlocked r) (proto :: nil);
  Some (set_protocolPeerBlocked r c).

Definition AllowService (r : rcmgrMetrics) (svc : string) : option rcmgrMetrics :=
  c ← prometheus.IncWithLabelValues (serviceAllowed r) (svc :: nil);
  Some (set_serviceAllowed r c).

Definition BlockService (r : rcmgrMetrics) (svc : string) : option rcmgrMetrics :=
  c ← prometheus.IncWithLabelValues (serviceBlocked r) (svc :: nil);
  Some (set_serviceBlocked r c).

Definition BlockServicePeer (r : rcmgrMetrics) (svc : string) (_ : peer.ID) : option rcmgrMetrics :=
  c ← prometheus.IncWithLabelValues (servicePeerBlocked r) (svc :: nil);
  Some (set_servicePeerBlocked r c).

Definition AllowMemory (r : rcmgrMetrics) (_ : Z) : option rcmgrMetrics :=
  Some (set_memoryAllowed r (prometheus.Inc (memoryAllowed r))).

Definition BlockMemory (r : rcmgrMetrics) (_ : Z) : option rcmgrMetrics :=
  Some (set_memoryBlocked r (prometheus.Inc (memoryBlocked r))).

(** A call of the [rcmgr.MetricsReporter] interface, as the resource manager
    makes them. *)
Inductive reporterCall : Type :=
| callAllowConn (dir : network.Direction) (usefd : bool)
| callBlockConn (dir : network.Direction) (usefd : bool)
| callAllowStream (p : peer.ID) (dir : network.Direction)
| callBlockStream (p : peer.ID) (dir : network.Direction)
| callAllowPeer (p : peer.ID)
| callBlockPeer (p : peer.ID)
| callAllowProtocol (proto : protocol.ID)
| callBlockProtocol (proto : protocol.ID)
| callBlockProtocolPeer (proto : protocol.ID) (p : peer.ID)
| callAllowService (svc : string)
| callBlockService (svc : string)
| callBlockServicePeer (svc : string) (p : peer.ID)
| callAllowMemory (size : Z)
| callBlockMemory (size : Z).

Definition report (r : rcmgrMetrics) (c : reporterCall) : option rcmgrMetrics :=
  match c with
  | callAllowConn dir usefd => AllowConn r dir usefd
  | callBlockConn dir usefd => BlockConn r dir usefd
  | callAllowStream p dir => AllowStream r p dir
  | callBlockStream p dir => BlockStream r p dir
  | callAllowPeer p => AllowPeer r p
  | callBlockPeer p => BlockPeer r p
  | callAllowProtocol proto => AllowProtocol r proto
  | callBlockProtocol proto => BlockProtocol r proto
  | callBlockProtocolPeer proto p => BlockProtocolPeer r proto p
  | callAllowService svc => AllowService r svc
  | callBlockService svc => BlockService r svc
  | callBlockServicePeer svc p => BlockServicePeer r svc p
  | callAllowMemory size => AllowMemory r size
  | callBlockMemory size => BlockMemory r size
  end.

(** A sequence of calls, in order; a panic ends it. *)
Fixpoint reportAll (r : rcmgrMetrics) (cs : list reporterCall) : option rcmgrMetrics :=
  match cs with
  | nil => Some r
  | c :: cs' => r' ← report r c; reportAll r' cs'
  end.

(** ** Vocabulary *)

(** The fourteen collectors of the reporter. *)
Inductive metric : Type :=
| m_connAllowed
| m_connBlocked
| m_streamAllowed
| m_streamBlocked
| m_peerAllowed
| m_peerBlocked
| m_protocolAllowed
| m_protocolBlocked
| m_protocolPeerBlocked
| m_serviceAllowed
| m_serviceBlocked
| m_servicePeerBlocked
| m_memoryAllowed
| m_memoryBlocked.

#[export] Instance metric_eq_dec : EqDecision metric.
Proof. solve_decision. Defined.

(** The count of a series: a collector and a list of label values (none,
    for a plain counter). *)
Definition read (r : rcmgrMetrics) (x : metric) (lvs : list string) : nat :=
  match x with
  | m_connAllowed => prometheus.value (connAllowed r) lvs
  | m_connBlocked => prometheus.value (connBlocked r) lvs
  | m_streamAllowed => prometheus.value (streamAllowed r) lvs
  | m_streamBlocked => prometheus.value (streamBlocked r) lvs
  | m_peerAllowed => match lvs with nil => prometheus.count (peerAllowed r) | _ => 0%nat end
  | m_peerBlocked => match lvs with nil => prometheus.count (peerBlocked r) | _ => 0%nat end
  | m_protocolAllowed => prometheus.value (protocolAllowed r) lvs
  | m_protocolBlocked => prometheus.value (protocolBlocked r) lvs
  | m_protocolPeerBlocked => prometheus.value (protocolPeerBlocked r) lvs
  | m_serviceAllowed => prometheus.value (serviceAllowed r) lvs
  | m_serviceBlocked => prometheus.value (serviceBlocked r) lvs
  | m_servicePeerBlocked => prometheus.value (servicePeerBlocked r) lvs
  | m_memoryAllowed => match lvs with nil => prometheus.count (memoryAllowed r) | _ => 0%nat end
  | m_memoryBlocked => match lvs with nil => prometheus.count (memoryBlocked r) | _ => 0%nat end
  end.

(** The series a call is to be counted in. *)
Definition seriesOf (c : reporterCall) : metric * list string :=
  match c with
  | callAllowConn dir usefd => (m_connAllowed, getDirection dir :: FormatBool usefd :: nil)
  | callBlockConn dir usefd => (m_connBlocked, getDirection dir :: FormatBool usefd :: nil)
  | callAllowStream p dir => (m_streamAllowed, getDirection dir :: nil)
  | callBlockStream p dir => (m_streamBlocked, getDirection dir :: nil)
  | callAllowPeer p => (m_peerAllowed, nil)
  | callBlockPeer p => (m_peerBlocked, nil)
  | callAllowProtocol proto => (m_protocolAllowed, proto :: nil)
  | callBlockProtocol proto => (m_protocolBlocked, proto :: nil)
  | callBlockProtocolPeer proto p => (m_protocolPeerBlocked, proto :: nil)
  | callAllowService svc => (m_serviceAllowed, svc :: nil)
  | callBlockService svc => (m_serviceBlocked, svc :: nil)
  | callBlockServicePeer svc p => (m_servicePeerBlocked, svc :: nil)
  | callAllowMemory size => (m_memoryAllowed, nil)
  | callBlockMemory size => (m_memoryBlocked, nil)
  end.

(** Whether the name a call is labelled with is valid UTF-8; a call that is
    labelled with no name has nothing to refuse. *)
Definition namesValid (c : reporterCall) : bool :=
  match c with
  | callAllowProtocol proto | callBlockProtocol proto
  | callBlockProtocolPeer proto _ => utf8.ValidString proto
  | callAllowService svc | callBlockService svc
  | callBlockServicePeer svc _ => utf8.ValidString svc
  | _ => true
  end.

(** The names of the fourteen collectors, in the order of registration. *)
Definition metricNames : list string :=
  "libp2p_rcmgr_conns_allowed_total"
  :: "libp2p_rcmgr_conns_blocked_total"
  :: "libp2p_rcmgr_streams_allowed_total"
  :: "libp2p_rcmgr_streams_blocked_total"
  :: "libp2p_rcmgr_peers_allowed_total"
  :: "libp2p_rcmgr_peer_blocked_total"
  :: "libp2p_rcmgr_protocols_allowed_total"
  :: "libp2p_rcmgr_protocols_blocked_total"
  :: "libp2p_rcmgr_protocols_for_peer_blocked_total"
  :: "libp2p_rcmgr_services_allowed_total"
  :: "libp2p_rcmgr_services_blocked_total"
  :: "libp2p_rcmgr_service_for_peer_blocked_total"
  :: "libp2p_rcmgr_memory_allocations_allowed_total"
  :: "libp2p_rcmgr_memory_allocations_blocked_total"
  :: nil.

(** Registering a list of names, one after the other. *)
Fixpoint registerAll (reg : prometheus.Registry) (names : list string)
  : option prometheus.Registry :=
  match names with
  | nil => Some reg
  | n :: ns => reg' ← prometheus.MustRegister reg n; registerAll reg' ns
  end.

(** How many label values each vector of the reporter takes. *)
Definition arities (r : rcmgrMetrics) : list nat :=
  List.map (fun cv => List.length (prometheus.labelNames cv))
    (connAllowed r :: connBlocked r :: streamAllowed r :: streamBlocked r
     :: protocolAllowed r :: protocolBlocked r :: protocolPeerBlocked r
     :: serviceAllowed r :: serviceBlocked r :: servicePeerBlocked r :: nil).

(** ** Properties of the reporter *)

#[local] Set Warnings "-clear-no-such-hyp".

Lemma registerAll_fresh (names : list string) :
  forall reg,
    NoDup names ->
    (forall n, n ∈ names -> n ∉ reg) ->
    registerAll reg names = Some (list_to_set names ∪ reg).
Proof.
  induction names as [|n ns IH]; intros reg Hdup Hfresh; cbn [registerAll].
  - f_equal. set_solver.
  - unfold prometheus.MustRegister.
    destruct (decide (n ∈ reg)) as [Hin|_].
    { exfalso. apply (Hfresh n); [left|exact Hin]. }
    cbn. apply NoDup_cons in Hdup as [Hn Hdup].
    rewrite IH; [f_equal; set_solver|exact Hdup|].
    intros n' Hn'. specialize (Hfresh n' ltac:(right; exact Hn')). set_solver.
Qed.

Lemma registerAll_taken (names : list string) :
  forall reg n, n ∈ names -> n ∈ reg -> registerAll reg names = None.
Proof.
  induction names as [|n0 ns IH]; intros reg n Hn Hreg; cbn [registerAll].
  - inversion Hn.
  - unfold prometheus.MustRegister.
    destruct (decide (n0 ∈ reg)) as [_|Hfree]; [reflexivity|]. cbn.
    apply elem_of_cons in Hn as [->|Hn]; [contradiction|].
    apply (IH _ n Hn). set_solver.
Qed.

Lemma registerAll_grows (names : list string) :
  forall reg reg', registerAll reg names = Some reg' ->
                   reg' = list_to_set names ∪ reg.
Proof.
  induction names as [|n ns IH]; intros reg reg'; cbn [registerAll].
  - intros [= <-]. set_solver.
  - unfold prometheus.MustRegister.
    destruct (decide (n ∈ reg)); [discriminate|]. cbn.
    intros H. apply IH in H. subst reg'. set_solver.
Qed.

Lemma metricNames_NoDup : NoDup metricNames.
Proof. apply (bool_decide_unpack (NoDup metricNames)). vm_compute. exact I. Qed.

Ltac registrations :=
  unfold createRcmgrMetrics; cbv zeta; cbn [registerAll metricNames];
  cbn [prometheus.vecName prometheus.counterName
       prometheus.NewCounterVec prometheus.NewCounter];
  repeat (match goal with
          | |- context [prometheus.MustRegister ?reg ?n] =>
              destruct (prometheus.MustRegister reg n) as [?reg|];
              cbn [mbind option_bind]
          end).

Lemma createRcmgrMetrics_inv (reg reg' : prometheus.Registry) (r : rcmgrMetrics) :
  createRcmgrMetrics reg = Some (reg', r) ->
  registerAll reg metricNames = Some reg'
  /\ arities r = (2 :: 2 :: 1 :: 1 :: 1 :: 1 :: 1 :: 1 :: 1 :: 1 :: nil)%nat
  /\ (forall x lvs, read r x lvs = 0%nat).
Proof.
  registrations; try discriminate.
  intros [= <- <-]. split; [reflexivity|]. split; [reflexivity|].
  intros x lvs. destruct x; cbn; try reflexivity; destruct lvs; reflexivity.
Qed.

Lemma createRcmgrMetrics_ok (reg reg' : prometheus.Registry) :
  registerAll reg metricNames = Some reg' ->
  exists r, createRcmgrMetrics reg = Some (reg', r).
Proof.
  registrations; try discriminate.
  intros [= <-]. eexists. reflexivity.
Qed.

Lemma createRcmgrMetrics_fresh (reg : prometheus.Registry) :
  (forall n, n ∈ metricNames -> n ∉ reg) -> is_Some (createRcmgrMetrics reg).
Proof.
  intros Hfresh.
  destruct (createRcmgrMetrics_ok reg _
              (registerAll_fresh metricNames reg metricNames_NoDup Hfresh))
    as [r Hr].
  rewrite Hr. eexists. reflexivity.
Qed.

(** X11: [createRcmgrMetrics] registers its fourteen collectors in the
    default registry, so it succeeds exactly when none of the fourteen
    names is registered yet, and it cannot succeed a second time: with the
    registry it leaves behind, the first [MustRegister] of another call
    panics. *)
Theorem createRcmgrMetrics_once (reg : prometheus.Registry) :
  (is_Some (createRcmgrMetrics reg) <-> forall n, n ∈ metricNames -> n ∉ reg)
  /\ (forall reg' r,
        createRcmgrMetrics reg = Some (reg', r) ->
        reg' = list_to_set metricNames ∪ reg
        /\ createRcmgrMetrics reg' = None).
Proof.
  split.
  - split.
    + intros [[reg' r] Hcreate] n Hn Hreg.
      apply createRcmgrMetrics_inv in Hcreate as [Hregs _].
      rewrite (registerAll_taken metricNames reg n Hn Hreg) in Hregs. discriminate.
    + intros Hfresh.
      destruct (createRcmgrMetrics_ok reg _
                  (registerAll_fresh metricNames reg metricNames_NoDup Hfresh))
        as [r Hr].
      rewrite Hr. eexists. reflexivity.
  - intros reg' r Hcreate.
    apply createRcmgrMetrics_inv in Hcreate as [Hregs _].
    apply registerAll_grows in Hregs. split; [exact Hregs|].
    destruct (createRcmgrMetrics reg') as [[reg'' r']|] eqn:Hagain; [|reflexivity].
    apply createRcmgrMetrics_inv in Hagain as [Hregs' _].
    rewrite (registerAll_taken metricNames reg' "libp2p_rcmgr_conns_allowed_total")
      in Hregs'; [discriminate| |].
    + unfold metricNames. left.
    + subst reg'. apply elem_of_union_l, elem_of_list_to_set.
      unfold metricNames. left.
Qed.

(** One more in the series of the call, and in no other. *)
Lemma value_incremented (cv : prometheus.CounterVec) (l lvs : list string) :
  prometheus.value
    {| prometheus.vecName := prometheus.vecName cv;
       prometheus.labelNames := prometheus.labelNames cv;
       prometheus.children := <[l := S (prometheus.value cv l)]> (prometheus.children cv) |}
    lvs
  = (prometheus.value cv lvs + (if decide (l = lvs) then 1 else 0))%nat.
Proof.
  unfold prometheus.value; cbn. destruct (decide (l = lvs)) as [->|Hne].
  - rewrite lookup_insert_eq. cbn. lia.
  - rewrite lookup_insert_ne by exact Hne. lia.
Qed.

Ltac open_report :=
  unfold report, AllowConn, BlockConn, AllowStream, BlockStream, AllowPeer,
    BlockPeer, AllowProtocol, BlockProtocol, BlockProtocolPeer, AllowService,
    BlockService, BlockServicePeer, AllowMemory, BlockMemory,
    prometheus.IncWithLabelValues;
  cbn [connAllowed connBlocked streamAllowed streamBlocked peerAllowed
         peerBlocked protocolAllowed protocolBlocked protocolPeerBlocked
         serviceAllowed serviceBlocked servicePeerBlocked memoryAllowed
         memoryBlocked List.length].

(** The label values of a call are valid UTF-8 exactly when its name is:
    the texts of [getDirection] and [FormatBool] always are. *)
Lemma seriesOf_validated (c : reporterCall) :
  forallb utf8.ValidString (seriesOf c).2 = namesValid c.
Proof.
  destruct c as [dir usefd|dir usefd|p dir|p dir|p|p|proto|proto|proto p
                 |svc|svc|svc p|size|size];
    cbn [seriesOf snd namesValid forallb];
    try (destruct dir); try (destruct usefd); try reflexivity;
    apply andb_true_r.
Qed.

Lemma report_counts (r : rcmgrMetrics) (c : reporterCall) :
  arities r = (2 :: 2 :: 1 :: 1 :: 1 :: 1 :: 1 :: 1 :: 1 :: 1 :: nil)%nat ->
  namesValid c = true ->
  exists r',
    report r c = Some r'
    /\ arities r' = arities r
    /\ (forall x lvs,
          read r' x lvs
          = (read r x lvs + (if decide (seriesOf c = (x, lvs)) then 1 else 0))%nat).
Proof.
  destruct r as [ca cb sa sb pa pb pra prb prpb sva svb svpb ma mb].
  unfold arities; cbn [List.map connAllowed connBlocked streamAllowed streamBlocked
                         protocolAllowed protocolBlocked protocolPeerBlocked
                         serviceAllowed serviceBlocked servicePeerBlocked].
  intros [= Hca Hcb Hsa Hsb Hpra Hprb Hprpb Hsva Hsvb Hsvpb] Hvalid.
  pose proof (seriesOf_validated c) as Hl. rewrite Hvalid in Hl.
  destruct c; cbn [seriesOf snd] in Hl; open_report;
    unfold prometheus.validateLabelValues;
    rewrite ?Hca, ?Hcb, ?Hsa, ?Hsb, ?Hpra, ?Hprb, ?Hprpb, ?Hsva, ?Hsvb, ?Hsvpb;
    rewrite ?Hl;
    cbn [List.length Nat.eqb andb mbind option_bind];
    (eexists; split; [reflexivity|]; split;
     [cbn; rewrite ?Hca, ?Hcb, ?Hsa, ?Hsb, ?Hpra, ?Hprb, ?Hprpb, ?Hsva, ?Hsvb, ?Hsvpb;
      reflexivity|]);
    intros x lvs; destruct x;
    cbn [read seriesOf set_connAllowed set_connBlocked set_streamAllowed
           set_streamBlocked set_peerAllowed set_peerBlocked set_protocolAllowed
           set_protocolBlocked set_protocolPeerBlocked set_serviceAllowed
           set_serviceBlocked set_servicePeerBlocked set_memoryAllowed
           set_memoryBlocked
           connAllowed connBlocked streamAllowed streamBlocked peerAllowed
           peerBlocked protocolAllowed protocolBlocked protocolPeerBlocked
           serviceAllowed serviceBlocked servicePeerBlocked memoryAllowed
           memoryBlocked];
    try (rewrite value_incremented);
    try (destruct lvs; cbn [prometheus.Inc prometheus.count]);
    repeat case_decide; simplify_eq; lia.
Qed.

(** A call with a name that is not valid UTF-8 panics, on every reporter. *)
Lemma report_invalid (r : rcmgrMetrics) (c : reporterCall) :
  namesValid c = false -> report r c = None.
Proof.
  intros Hinvalid.
  pose proof (seriesOf_validated c) as Hl. rewrite Hinvalid in Hl.
  destruct c; cbn [namesValid] in Hinvalid; try discriminate Hinvalid;
    cbn [seriesOf snd] in Hl; open_report;
    unfold prometheus.validateLabelValues;
    rewrite Hl, andb_false_r; reflexivity.
Qed.

Lemma reportAll_counts (cs : list reporterCall) :
  forall r,
    arities r = (2 :: 2 :: 1 :: 1 :: 1 :: 1 :: 1 :: 1 :: 1 :: 1 :: nil)%nat ->
    (is_Some (reportAll r cs) <-> Forall (fun c => namesValid c = true) cs)
    /\ (forall r',
          reportAll r cs = Some r' ->
          forall x lvs,
            read r' x lvs
            = (read r x lvs
               + List.length (filter (fun c => seriesOf c = (x, lvs)) cs))%nat).
Proof.
  induction cs as [|c cs IH]; intros r Har.
  - split; [split; [constructor|eexists; reflexivity]|].
    intros r' [= <-] x lvs. cbn. lia.
  - cbn [reportAll]. rewrite Forall_cons.
    destruct (namesValid c) eqn:Hc.
    + destruct (report_counts r c Har Hc) as (r1 & Hr1 & Har1 & Hread1).
      rewrite Har in Har1. destruct (IH r1 Har1) as [Hiff Hread'].
      rewrite Hr1. cbn [mbind option_bind]. split.
      * rewrite Hiff. split; [intros H; split; [reflexivity|exact H]|intros [_ H]; exact H].
      * intros r' Hr' x lvs. rewrite (Hread' r' Hr'), Hread1, filter_cons.
        destruct (decide (seriesOf c = (x, lvs))); cbn [List.length]; lia.
    + rewrite (report_invalid r c Hc). cbn [mbind option_bind]. split.
      * split; [intros [r' [=]]|intros [[=] _]].
      * intros r' [=].
Qed.

(** Two increments of one vector, in either order. *)
Lemma children_swap (m : gmap (list string) nat) (l1 l2 : list string) :
  <[l2 := S (default 0%nat (<[l1 := S (default 0%nat (m !! l1))]> m !! l2))]>
    (<[l1 := S (default 0%nat (m !! l1))]> m)
  = <[l1 := S (default 0%nat (<[l2 := S (default 0%nat (m !! l2))]> m !! l1))]>
      (<[l2 := S (default 0%nat (m !! l2))]> m).
Proof.
  destruct (decide (l1 = l2)) as [->|Hne]; [reflexivity|].
  rewrite !lookup_insert_ne by congruence.
  apply insert_insert_ne. congruence.
Qed.

Ltac reporter_fields :=
  unfold set_connAllowed, set_connBlocked, set_streamAllowed,
    set_streamBlocked, set_peerAllowed, set_peerBlocked, set_protocolAllowed,
    set_protocolBlocked, set_protocolPeerBlocked, set_serviceAllowed,
    set_serviceBlocked, set_servicePeerBlocked, set_memoryAllowed,
    set_memoryBlocked;
  cbn [mbind option_bind List.length
         connAllowed connBlocked streamAllowed streamBlocked peerAllowed
         peerBlocked protocolAllowed protocolBlocked protocolPeerBlocked
         serviceAllowed serviceBlocked servicePeerBlocked memoryAllowed
         memoryBlocked
         prometheus.vecName prometheus.labelNames prometheus.children
         prometheus.counterName prometheus.count prometheus.Inc].

Lemma report_swap (r : rcmgrMetrics) (c1 c2 : reporterCall) :
  (r' ← report r c1; report r' c2) = (r' ← report r c2; report r' c1).
Proof.
  destruct r as [ca cb sa sb pa pb pra prb prpb sva svb svpb ma mb].
  destruct c1, c2; open_report;
    repeat (reporter_fields;
            match goal with
            | E : prometheus.validateLabelValues ?a ?b = _
              |- context [prometheus.validateLabelValues ?a ?b] => rewrite E
            | |- context [prometheus.validateLabelValues ?a
                            (List.length (prometheus.labelNames ?v))] =>
                is_var v;
                destruct (prometheus.validateLabelValues a
                            (List.length (prometheus.labelNames v))) eqn:?
            end);
    reporter_fields; try reflexivity;
    unfold prometheus.value; reporter_fields;
    rewrite children_swap; reflexivity.
Qed.

(** X12: a reporter made by [createRcmgrMetrics] panics on a sequence of
    calls exactly when one of them names a protocol or a service by a string
    that is not valid UTF-8, which [WithLabelValues] refuses; the number of
    label values is always right, and the texts of the direction and of
    [usesFD] are always valid.  When it does not panic it has counted every
    call once: the count of each series is the number of calls of that kind
    with those label values.  Connections are counted by direction and use
    of a file descriptor, streams by direction, protocols and services by
    name; peers are no label, and memory calls are counted, not their
    sizes. *)
Theorem reporter_counts_every_call (reg reg' : prometheus.Registry)
  (r0 : rcmgrMetrics) (cs : list reporterCall) :
  createRcmgrMetrics reg = Some (reg', r0) ->
  (is_Some (reportAll r0 cs) <-> Forall (fun c => namesValid c = true) cs)
  /\ (forall r,
        reportAll r0 cs = Some r ->
        forall x lvs,
          read r x lvs
          = List.length (filter (fun c => seriesOf c = (x, lvs)) cs)).
Proof.
  intros Hcreate.
  apply createRcmgrMetrics_inv in Hcreate as (_ & Har & Hzero).
  destruct (reportAll_counts cs r0 Har) as [Hiff Hread].
  split; [exact Hiff|].
  intros r Hr x lvs. rewrite (Hread r Hr), Hzero. reflexivity.
Qed.

(** X13: the reporter does not depend on the order of the calls: two
    sequences with the same calls leave it in the same state (or both
    panic). *)
Theorem reportAll_order_independent (r : rcmgrMetrics) (cs cs' : list reporterCall) :
  Permutation cs cs' -> reportAll r cs = reportAll r cs'.
Proof.
  intros Hperm. revert r.
  induction Hperm as [|c cs cs' _ IH|c1 c2 cs|cs1 cs2 cs3 _ IH1 _ IH2]; intros r.
  - reflexivity.
  - cbn [reportAll]. destruct (report r c) as [r1|]; cbn [mbind option_bind];
      [apply IH|reflexivity].
  - cbn [reportAll]. pose proof (report_swap r c1 c2) as Hswap.
    destruct (report r c1) as [r1|], (report r c2) as [r2|];
      cbn [mbind option_bind] in *.
    + rewrite Hswap. reflexivity.
    + rewrite Hswap. reflexivity.
    + rewrite <- Hswap. reflexivity.
    + reflexivity.
  - rewrite IH1. apply IH2.
Qed.

(** * The constructor and the limits of the configuration *)

Section Constructor.

Variable peer_Decode : string -> peer.ID + error.

(** One turn of the loop, by the key of the address. *)
Lemma applyLimits_cons (m : rcmgr.resourceManager) (scope : string)
  (L : config.ResourceMgrScopeConfig)
  (rest : list (string * config.ResourceMgrScopeConfig)) :
  applyLimits peer_Decode m ((scope, L) :: rest)
  = match addressKey peer_Decode scope with
    | Some k =>
        applyLimits peer_Decode
          (putScope m k (rcmgr.SetLimit (scopeOf m k) (newLimit L))) rest
    | None => inr (Errorf_applying_limits scope (addressError peer_Decode scope))
    end.
Proof.
  cbn [applyLimits].
  destruct (addressKey peer_Decode scope) as [k|] eqn:Ek.
  - rewrite (NetSetLimit_key peer_Decode m scope k L Ek). reflexivity.
  - rewrite (NetSetLimit_no_key peer_Decode m scope L Ek). reflexivity.
Qed.

Lemma applyLimits_succeeds_valid (limits : list (string * config.ResourceMgrScopeConfig)) :
  forall m m',
    applyLimits peer_Decode m limits = inl m' ->
    Forall (fun e => validAddress peer_Decode e.1) limits.
Proof.
  induction limits as [|[scope L] rest IH]; intros m m' Happly.
  - constructor.
  - rewrite applyLimits_cons in Happly.
    destruct (addressKey peer_Decode scope) as [k|] eqn:Ek; [|discriminate].
    constructor.
    + apply addressKey_valid. cbn [fst]. rewrite Ek. eexists. reflexivity.
    + eapply IH, Happly.
Qed.

(** A scope that is held, and not named again, keeps its limit through the
    rest of the loop. *)
Lemma applyLimits_keeps (k : scopeKey)
  (limits : list (string * config.ResourceMgrScopeConfig)) :
  forall m m',
    applyLimits peer_Decode m limits = inl m' ->
    Forall (fun e => addressKey peer_Decode e.1 <> Some k) limits ->
    held m k ->
    scopeOf m' k = scopeOf m k /\ held m' k.
Proof.
  induction limits as [|[scope L] rest IH]; intros m m' Happly Hother Hheld.
  - injection Happly as <-. split; [reflexivity|exact Hheld].
  - rewrite applyLimits_cons in Happly.
    inversion Hother as [|e l Hhere Hrest]; subst. cbn [fst] in Hhere.
    destruct (addressKey peer_Decode scope) as [k'|] eqn:Ek; [|discriminate].
    destruct (IH _ _ Happly Hrest) as [Hscope Hheld'].
    + apply held_putScope_other, Hheld.
    + split; [|exact Hheld'].
      rewrite Hscope. apply scopeOf_putScope_ne. congruence.
Qed.

(** X8: the loop over [Swarm.ResourceMgr.Limits] stops at the first entry
    whose address is not valid, whatever follows it, and returns the error
    of [NetSetLimit] for that address wrapped with the address: the
    invalid-peer-ID error for a [peer:] address that does not decode, the
    invalid-scope error otherwise. *)
Theorem applyLimits_stops_at_first_invalid (m : rcmgr.resourceManager)
  (pre post : list (string * config.ResourceMgrScopeConfig))
  (scope : string) (L : config.ResourceMgrScopeConfig) :
  Forall (fun e => validAddress peer_Decode e.1) pre ->
  ~ validAddress peer_Decode scope ->
  applyLimits peer_Decode m (app pre ((scope, L) :: post))
    = inr (Errorf_applying_limits scope (addressError peer_Decode scope))
  /\ (NetSetLimit peer_Decode m scope L).2 = Some (addressError peer_Decode scope)
  /\ (addressError peer_Decode scope = Errorf_invalid_scope scope
      \/ exists p err,
           scope = String.append "peer:" p /\ peer_Decode p = inr err
           /\ addressError peer_Decode scope = Errorf_invalid_peer_ID p err).
Proof.
  intros Hpre Hscope.
  assert (Ek : addressKey peer_Decode scope = None).
  { destruct (addressKey peer_Decode scope) as [k|] eqn:Ek; [|reflexivity].
    contradiction Hscope. apply addressKey_valid. rewrite Ek. eexists. reflexivity. }
  split; [|split].
  - revert m. induction Hpre as [|[a La] pre Ha Hpre IH]; intros m.
    + cbn [app]. rewrite applyLimits_cons, Ek. reflexivity.
    + cbn [app]. rewrite applyLimits_cons.
      apply addressKey_valid in Ha. destruct Ha as [k Hk]. cbn [fst] in Hk.
      rewrite Hk. apply IH.
  - rewrite (NetSetLimit_no_key peer_Decode m scope L Ek). reflexivity.
  - unfold addressError.
    destruct (String.prefix "peer:" scope) eqn:Epeer; [|left; reflexivity].
    destruct (peer_Decode (slice_from 5 scope)) as [pid|err] eqn:Ed; [left; reflexivity|].
    right. exists (slice_from 5 scope), err.
    split; [exact (prefix_slice _ _ Epeer)|]. split; [exact Ed|reflexivity].
Qed.

(** What a successful constructor went through. *)
Lemma ResourceManager_succeeded (cfg : config.ResourceMgr) (env : Env)
  (reg reg' : prometheus.Registry) (m' : rcmgr.resourceManager) :
  ResourceManager peer_Decode cfg env reg = Some (reg', inl (inr m')) ->
  ResourceManager_enabled cfg env = true
  /\ (exists reporter, createRcmgrMetrics reg = Some (reg', reporter))
  /\ exists m, applyLimits peer_Decode m (config.Limits cfg) = inl m'.
Proof.
  unfold ResourceManager.
  destruct (ResourceManager_enabled cfg env); [|discriminate].
  destruct (PathRoot env) as [repoPath|err]; [|discriminate].
  destruct (limitFile env _) as [|err|[l|err]]; try discriminate;
    destruct (createRcmgrMetrics reg) as [[reg1 reporter]|]; try discriminate;
    destruct (NewResourceManager env _ _) as [manager|err]; try discriminate;
    destruct (applyLimits _ _ _) as [manager'|err] eqn:Happly; try discriminate;
    intros [= <- <-]; eauto.
Qed.

(** An enabled constructor that does not panic and does not return a manager
    returns an error: it never returns the null manager. *)
Lemma ResourceManager_enabled_outcomes (cfg : config.ResourceMgr) (env : Env)
  (reg : prometheus.Registry) :
  ResourceManager_enabled cfg env = true ->
  ResourceManager peer_Decode cfg env reg = None
  \/ (exists reg' err, ResourceManager peer_Decode cfg env reg = Some (reg', inr err))
  \/ (exists reg' m', ResourceManager peer_Decode cfg env reg = Some (reg', inl (inr m'))).
Proof.
  unfold ResourceManager. intros ->.
  destruct (PathRoot env) as [repoPath|err]; [|eauto].
  destruct (limitFile env _) as [|err|[l|err]]; eauto;
    destruct (createRcmgrMetrics reg) as [[reg1 reporter]|]; eauto;
    destruct (NewResourceManager env _ _) as [manager|err]; eauto;
    destruct (applyLimits _ _ _) as [manager'|err]; eauto.
Qed.

(** With no metric name registered yet, the constructor does not panic. *)
Lemma ResourceManager_fresh_returns (cfg : config.ResourceMgr) (env : Env)
  (reg : prometheus.Registry) :
  is_Some (createRcmgrMetrics reg) ->
  is_Some (ResourceManager peer_Decode cfg env reg).
Proof.
  intros [[reg1 reporter] Hcreate]. unfold ResourceManager. rewrite Hcreate.
  destruct (ResourceManager_enabled cfg env); [|eauto].
  destruct (PathRoot env) as [repoPath|err]; [|eauto].
  destruct (limitFile env _) as [|err|[l|err]]; eauto;
    destruct (NewResourceManager env _ _) as [manager|err]; eauto;
    destruct (applyLimits _ _ _) as [manager'|err]; eauto.
Qed.

(** X9: the limits of the configuration are in effect on the manager the
    constructor returns: [NetLimit] on the address of an entry returns the
    entry's configuration (as [NetSetLimit] stores it), provided no entry
    the loop visits later names the same scope. *)
Theorem configured_limits_in_effect (cfg : config.ResourceMgr) (env : Env)
  (reg reg' : prometheus.Registry) (m' : rcmgr.resourceManager)
  (pre post : list (string * config.ResourceMgrScopeConfig))
  (scope : string) (L : config.ResourceMgrScopeConfig) :
  ResourceManager peer_Decode cfg env reg = Some (reg', inl (inr m')) ->
  config.Limits cfg = app pre ((scope, L) :: post) ->
  Forall (fun e => addressKey peer_Decode e.1 <> addressKey peer_Decode scope) post ->
  NetLimit peer_Decode m' scope = (m', readBack L, None).
Proof.
  intros Hok Hlimits Hlater.
  destruct (ResourceManager_succeeded cfg env reg reg' m' Hok) as (_ & _ & m & Happly).
  rewrite Hlimits in Happly. clear Hok Hlimits.
  revert m Happly. induction pre as [|[a La] pre IH]; intros m Happly.
  - cbn [app] in Happly. rewrite applyLimits_cons in Happly.
    destruct (addressKey peer_Decode scope) as [k|] eqn:Ek; [|discriminate].
    destruct (applyLimits_keeps k post _ _ Happly Hlater (held_putScope _ _ _))
      as [Hscope Hheld].
    rewrite scopeOf_putScope in Hscope.
    rewrite (NetLimit_key peer_Decode m' scope k Ek).
    rewrite putScope_held by exact Hheld.
    rewrite Hscope. cbn [rcmgr.SetLimit rcmgr.limit].
    rewrite limitConfig_newLimit. reflexivity.
  - cbn [app] in Happly. rewrite applyLimits_cons in Happly.
    destruct (addressKey peer_Decode a) as [ka|]; [|discriminate].
    eapply IH, Happly.
Qed.

(** X10: an enabled constructor does not return a manager when an entry of
    [Swarm.ResourceMgr.Limits] has an address that is not valid ([all], for
    one): it returns an error, unless [createRcmgrMetrics] panics first;
    with none of the metric names registered yet, it returns an error. *)
Theorem invalid_limit_address_fails_constructor (cfg : config.ResourceMgr) (env : Env)
  (reg : prometheus.Registry)
  (scope : string) (L : config.ResourceMgrScopeConfig) :
  ResourceManager_enabled cfg env = true ->
  In (scope, L) (config.Limits cfg) ->
  ~ validAddress peer_Decode scope ->
  (ResourceManager peer_Decode cfg env reg = None
   \/ exists reg' err, ResourceManager peer_Decode cfg env reg = Some (reg', inr err))
  /\ ((forall n, n ∈ metricNames -> n ∉ reg) ->
      exists reg' err, ResourceManager peer_Decode cfg env reg = Some (reg', inr err)).
Proof.
  intros Henabled Hin Hinvalid.
  assert (Hnone : forall reg' m',
             ResourceManager peer_Decode cfg env reg <> Some (reg', inl (inr m'))).
  { intros reg' m' Hres.
    destruct (ResourceManager_succeeded cfg env reg reg' m' Hres) as (_ & _ & m & Happly).
    apply applyLimits_succeeds_valid in Happly.
    rewrite Forall_forall in Happly. apply Hinvalid.
    apply (Happly (scope, L)). apply list_elem_of_In, Hin. }
  assert (Hcases : ResourceManager peer_Decode cfg env reg = None
                   \/ exists reg' err,
                        ResourceManager peer_Decode cfg env reg = Some (reg', inr err)).
  { destruct (ResourceManager_enabled_outcomes cfg env reg Henabled)
      as [Hpanic|[Herr|(reg' & m' & Hres)]]; [left; exact Hpanic|right; exact Herr|].
    contradiction (Hnone reg' m' Hres). }
  split; [exact Hcases|].
  intros Hfresh. destruct Hcases as [Hpanic|Herr]; [|exact Herr].
  destruct (ResourceManager_fresh_returns cfg env reg) as [res Hres].
  - apply createRcmgrMetrics_fresh, Hfresh.
  - rewrite Hres in Hpanic. discriminate.
Qed.

End Constructor.

(** * Views and the loop, once more *)

Section Views.

Variable peer_Decode : string -> peer.ID + error.
Variable peer_Pretty : peer.ID -> string.

(** Two managers with the same scope under every key. *)
Definition sameScopes (m m' : rcmgr.resourceManager) : Prop :=
  forall k, scopeOf m' k = scopeOf m k.

Lemma sameScopes_view (m : rcmgr.resourceManager) (k : scopeKey) :
  sameScopes m (putScope m k (scopeOf m k)).
Proof.
  intros k'. destruct (decide (k = k')) as [->|Hne].
  - apply scopeOf_putScope.
  - apply scopeOf_putScope_ne, Hne.
Qed.

Lemma sameScopes_refl (m : rcmgr.resourceManager) : sameScopes m m.
Proof. intros k. reflexivity. Qed.

Lemma NetLimit_sameScopes (m : rcmgr.resourceManager) (a : string) :
  sameScopes m (NetLimit peer_Decode m a).1.1.
Proof.
  destruct (addressKey peer_Decode a) as [k|] eqn:Ea.
  - rewrite (NetLimit_key peer_Decode m a k Ea). apply sameScopes_view.
  - rewrite (NetLimit_no_key peer_Decode m a Ea). apply sameScopes_refl.
Qed.

Lemma NetStat_sameScopes (m : rcmgr.resourceManager) (a : string) :
  sameScopes m (NetStat peer_Decode peer_Pretty m a).1.1.
Proof.
  destruct (string_dec a "all") as [->|Hall].
  - rewrite NetStat_all_rcmgr. apply sameScopes_refl.
  - destruct (addressKey peer_Decode a) as [k|] eqn:Ea.
    + rewrite (NetStat_key peer_Decode peer_Pretty m a k Ea). apply sameScopes_view.
    + rewrite (NetStat_no_key peer_Decode peer_Pretty m a Hall Ea).
      apply sameScopes_refl.
Qed.

(** What [NetLimit] returns, and what [NetStat] returns on an address other
    than [all], is read off the scopes. *)
Lemma answers_by_scopes (m m' : rcmgr.resourceManager) (b : string) :
  sameScopes m m' ->
  ((NetLimit peer_Decode m' b).1.2 = (NetLimit peer_Decode m b).1.2
   /\ (NetLimit peer_Decode m' b).2 = (NetLimit peer_Decode m b).2)
  /\ (b <> "all" ->
      (NetStat peer_Decode peer_Pretty m' b).1.2
        = (NetStat peer_Decode peer_Pretty m b).1.2
      /\ (NetStat peer_Decode peer_Pretty m' b).2
        = (NetStat peer_Decode peer_Pretty m b).2).
Proof.
  intros Hsame.
  destruct (addressKey peer_Decode b) as [k|] eqn:Eb.
  - rewrite !(NetLimit_key peer_Decode _ b k Eb).
    rewrite !(NetStat_key peer_Decode peer_Pretty _ b k Eb).
    cbn [fst snd]. rewrite (Hsame k). repeat split; reflexivity.
  - rewrite !(NetLimit_no_key peer_Decode _ b Eb). cbn [fst snd].
    split; [split; reflexivity|]. intros Hall.
    rewrite !(NetStat_no_key peer_Decode peer_Pretty _ b Hall Eb).
    split; reflexivity.
Qed.

(** X14: asking changes no answer.  After [NetLimit] or [NetStat] on any
    address, [NetLimit] on every address and [NetStat] on every address
    other than [all] return the configuration, the usage and the error they
    returned before, although the manager may have changed (X5). *)
Theorem views_change_no_answer (m : rcmgr.resourceManager) (a b : string) :
  let after_limit := (NetLimit peer_Decode m a).1.1 in
  let after_stat := (NetStat peer_Decode peer_Pretty m a).1.1 in
  ((NetLimit peer_Decode after_limit b).1.2 = (NetLimit peer_Decode m b).1.2
   /\ (NetLimit peer_Decode after_limit b).2 = (NetLimit peer_Decode m b).2)
  /\ ((NetLimit peer_Decode after_stat b).1.2 = (NetLimit peer_Decode m b).1.2
      /\ (NetLimit peer_Decode after_stat b).2 = (NetLimit peer_Decode m b).2)
  /\ (b <> "all" ->
      ((NetStat peer_Decode peer_Pretty after_limit b).1.2
         = (NetStat peer_Decode peer_Pretty m b).1.2
       /\ (NetStat peer_Decode peer_Pretty after_limit b).2
         = (NetStat peer_Decode peer_Pretty m b).2)
      /\ ((NetStat peer_Decode peer_Pretty after_stat b).1.2
            = (NetStat peer_Decode peer_Pretty m b).1.2
          /\ (NetStat peer_Decode peer_Pretty after_stat b).2
            = (NetStat peer_Decode peer_Pretty m b).2)).
Proof.
  cbv zeta.
  destruct (answers_by_scopes m _ b (NetLimit_sameScopes m a)) as [Hl1 Hs1].
  destruct (answers_by_scopes m _ b (NetStat_sameScopes m a)) as [Hl2 Hs2].
  split; [exact Hl1|]. split; [exact Hl2|].
  intros Hall. split; [exact (Hs1 Hall)|exact (Hs2 Hall)].
Qed.

Lemma applyLimits_valid_succeeds (limits : list (string * config.ResourceMgrScopeConfig)) :
  Forall (fun e => validAddress peer_Decode e.1) limits ->
  forall m, exists m', applyLimits peer_Decode m limits = inl m'.
Proof.
  induction 1 as [|[scope L] rest Hscope _ IH]; intros m.
  - exists m. reflexivity.
  - rewrite applyLimits_cons.
    apply addressKey_valid in Hscope. destruct Hscope as [k Hk]. cbn [fst] in Hk.
    rewrite Hk. apply IH.
Qed.

(** X15: the loop over [Swarm.ResourceMgr.Limits] succeeds exactly when
    every address is valid, from whatever manager it starts: the values of
    a limit are never a reason to fail, negative ones included. *)
Theorem applyLimits_succeeds_iff_addresses_valid (m : rcmgr.resourceManager)
  (limits : list (string * config.ResourceMgrScopeConfig)) :
  (exists m', applyLimits peer_Decode m limits = inl m')
  <-> Forall (fun e => validAddress peer_Decode e.1) limits.
Proof.
  split.
  - intros [m' Happly]. exact (applyLimits_succeeds_valid peer_Decode limits m m' Happly).
  - intros Hvalid. apply applyLimits_valid_succeeds, Hvalid.
Qed.

End Views.

(** * The further properties at concrete inputs *)

(** A decoder under which an identifier has two texts, as a peer ID has a
    base58 and a CID form: [Qm...], and the same behind [b:]. *)
Definition exampleAliasDecode (s : string) : peer.ID + error :=
  if String.prefix "Qm" s then inl s
  else if String.prefix "b:Qm" s then inl (slice_from 2 s)
  else inr (errors_New "failed to parse peer ID").

(** The scope of a peer, in use. *)
Definition examplePeer : rcmgr.resourceScope :=
  {| rcmgr.stat :=
       {| network.NumStreamsInbound := 2; network.NumStreamsOutbound := 1;
          network.NumConnsInbound := 1; network.NumConnsOutbound := 0;
          network.NumFD := 1; network.Memory := 8192 |};
     rcmgr.limit := rcmgr.StaticLimit 128 exampleBase |}.

(** The example manager with that peer scope as well. *)
Definition examplePeerManager : rcmgr.resourceManager :=
  rcmgr.putPeer exampleManager "QmPeer" examplePeer.

(** A configuration that enables the manager and sets two limits. *)
Definition exampleConfig : config.ResourceMgr :=
  {| config.Enabled := config.FlagTrue;
     config.Limits :=
       ("system", exampleStatic) :: ("peer:QmPeer", exampleStaticWithMin) :: nil |}.

(** A configuration that gives a limit to [all]. *)
Definition exampleConfigAll : config.ResourceMgr :=
  {| config.Enabled := config.FlagTrue;
     config.Limits := ("system", exampleStatic) :: ("all", exampleStatic) :: nil |}.

(** What the constructor returns for [exampleConfig]. *)
Definition exampleConfigured : rcmgr.resourceManager :=
  putScope
    (putScope (rcmgr.newResourceManager exampleLimiter) keySystem
       (rcmgr.SetLimit (rcmgr.system (rcmgr.newResourceManager exampleLimiter))
          (newLimit exampleStatic)))
    (keyPeer "QmPeer")
    (rcmgr.SetLimit (rcmgr.newScope (rcmgr.GetPeerLimits exampleLimiter "QmPeer"))
       (newLimit exampleStaticWithMin)).

(** Calls a reporter may receive. *)
Definition exampleCalls : list reporterCall :=
  callAllowConn network.DirInbound true
  :: callBlockMemory 4096
  :: callAllowConn network.DirInbound true
  :: callBlockServicePeer "identify" "QmPeer"
  :: nil.

(** X1 with a limit set on a peer and read on a service. *)
Lemma NetSetLimit_leaves_other_limits_example :
  addressKey exampleDecode "peer:QmPeer" <> addressKey exampleDecode "svc:identify"
  /\ (NetLimit exampleDecode
        (NetSetLimit exampleDecode exampleManager "peer:QmPeer" exampleStatic).1
        "svc:identify").1.2
     = (NetLimit exampleDecode exampleManager "svc:identify").1.2
  /\ (NetLimit exampleDecode
        (NetSetLimit exampleDecode exampleManager "peer:QmPeer" exampleStatic).1
        "svc:identify").2
     = (NetLimit exampleDecode exampleManager "svc:identify").2.
Proof.
  assert (Hne : addressKey exampleDecode "peer:QmPeer"
                <> addressKey exampleDecode "svc:identify")
    by (vm_compute; discriminate).
  exact (conj Hne
           (NetSetLimit_leaves_other_limits exampleDecode exampleManager
              "peer:QmPeer" "svc:identify" exampleStatic Hne)).
Defined.

(** X2 with the two texts of one peer identifier. *)
Lemma NetSetLimit_then_NetLimit_alias_example :
  addressKey exampleAliasDecode "peer:QmPeer" = Some (keyPeer "QmPeer")
  /\ addressKey exampleAliasDecode "peer:b:QmPeer" = Some (keyPeer "QmPeer")
  /\ NetLimit exampleAliasDecode
       (NetSetLimit exampleAliasDecode exampleManager "peer:QmPeer" exampleStatic).1
       "peer:b:QmPeer"
     = ((NetSetLimit exampleAliasDecode exampleManager "peer:QmPeer" exampleStatic).1,
        readBack exampleStatic, None).
Proof.
  assert (Ha : addressKey exampleAliasDecode "peer:QmPeer" = Some (keyPeer "QmPeer"))
    by (vm_compute; reflexivity).
  assert (Hb : addressKey exampleAliasDecode "peer:b:QmPeer" = Some (keyPeer "QmPeer"))
    by (vm_compute; reflexivity).
  exact (conj Ha (conj Hb
           (NetSetLimit_then_NetLimit_alias exampleAliasDecode exampleManager
              "peer:QmPeer" "peer:b:QmPeer" (keyPeer "QmPeer") exampleStatic Ha Hb))).
Defined.

(** X3 with the limit of a service in use set and its usage read. *)
Lemma NetSetLimit_leaves_usage_example :
  "svc:identify" <> "all"
  /\ (NetStat exampleDecode examplePretty
        (NetSetLimit exampleDecode exampleManager "svc:identify" exampleStatic).1
        "svc:identify").1.2
     = (NetStat exampleDecode examplePretty exampleManager "svc:identify").1.2
  /\ (NetStat exampleDecode examplePretty
        (NetSetLimit exampleDecode exampleManager "svc:identify" exampleStatic).1
        "svc:identify").2
     = (NetStat exampleDecode examplePretty exampleManager "svc:identify").2.
Proof.
  assert (Hall : "svc:identify" <> "all") by discriminate.
  exact (conj Hall
           (NetSetLimit_leaves_usage exampleDecode examplePretty exampleManager
              "svc:identify" "svc:identify" exampleStatic Hall)).
Defined.

(** X4 with the limit of the service the example manager holds. *)
Lemma NetSetLimit_leaves_aggregate_example :
  addressKey exampleDecode "svc:identify" = Some (keyService "identify")
  /\ held exampleManager (keyService "identify")
  /\ (NetStat exampleDecode examplePretty
        (NetSetLimit exampleDecode exampleManager "svc:identify" exampleStatic).1
        "all").1.2
     = (NetStat exampleDecode examplePretty exampleManager "all").1.2.
Proof.
  assert (Ha : addressKey exampleDecode "svc:identify" = Some (keyService "identify"))
    by (vm_compute; reflexivity).
  assert (Hheld : held exampleManager (keyService "identify"))
    by (exists exampleIdentify; vm_compute; reflexivity).
  exact (conj Ha (conj Hheld
           (NetSetLimit_leaves_aggregate exampleDecode examplePretty exampleManager
              "svc:identify" (keyService "identify") exampleStatic Ha Hheld))).
Defined.

(** X5 with a service the example manager holds no scope for. *)
Lemma first_view_creates_service_scope_example :
  rcmgr.svc exampleManager !! "ping" = None
  /\ (let r := NetStat exampleDecode examplePretty exampleManager
                 (String.append "svc:" "ping") in
      r.1.2 = {| System := None; Transient := None;
                 Services := Some {[ "ping" := network.zero ]};
                 Protocols := None; Peers := None |}
      /\ r.2 = None
      /\ rcmgr.Services (rcmgr.Stat exampleManager) !! "ping" = None
      /\ rcmgr.Services (rcmgr.Stat r.1.1) !! "ping" = Some network.zero
      /\ NetLimit exampleDecode r.1.1 (String.append "svc:" "ping")
         = (r.1.1,
            (limitConfig (rcmgr.GetServiceLimits (rcmgr.limits exampleManager) "ping")).1,
            (limitConfig (rcmgr.GetServiceLimits (rcmgr.limits exampleManager) "ping")).2)).
Proof.
  assert (Hnone : rcmgr.svc exampleManager !! "ping" = None)
    by (vm_compute; reflexivity).
  exact (conj Hnone
           (first_view_creates_service_scope exampleDecode examplePretty
              exampleManager "ping" Hnone)).
Defined.

(** X6 with the service the example manager holds. *)
Lemma NetStat_single_agrees_with_all_example :
  Services (NetStat exampleDecode examplePretty exampleManager "all").1.2
  = Some {[ "identify" := rcmgr.stat exampleIdentify ]}
  /\ NetStat exampleDecode examplePretty exampleManager (String.append "svc:" "identify")
     = (exampleManager,
        {| System := None; Transient := None;
           Services := Some {[ "identify" := rcmgr.stat exampleIdentify ]};
           Protocols := None; Peers := None |}, None).
Proof.
  assert (Hall : Services (NetStat exampleDecode examplePretty exampleManager "all").1.2
                 = Some {[ "identify" := rcmgr.stat exampleIdentify ]})
    by (vm_compute; reflexivity).
  assert (Hname : ({[ "identify" := rcmgr.stat exampleIdentify ]}
                     : gmap string network.ScopeStat) !! "identify"
                  = Some (rcmgr.stat exampleIdentify))
    by (vm_compute; reflexivity).
  exact (conj Hall
           (proj1 (NetStat_single_agrees_with_all exampleDecode examplePretty
                     exampleManager "identify" (rcmgr.stat exampleIdentify))
              _ Hall Hname)).
Defined.

(** X7 with a manager that holds the scope of one peer. *)
Lemma NetStat_all_lists_peers_by_Pretty_example :
  (forall p q, examplePretty p = examplePretty q -> p = q)
  /\ Peers (NetStat exampleDecode examplePretty examplePeerManager "all").1.2
     = Some {[ "QmPeer" := rcmgr.stat examplePeer ]}
  /\ exampleDecode "QmPeer" = inl "QmPeer"
  /\ ({[ "QmPeer" := rcmgr.stat examplePeer ]} : gmap string network.ScopeStat)
       !! examplePretty "QmPeer" = Some (rcmgr.stat examplePeer)
  /\ NetStat exampleDecode examplePretty examplePeerManager
       (String.append "peer:" "QmPeer")
     = (examplePeerManager,
        {| System := None; Transient := None; Services := None;
           Protocols := None;
           Peers := Some {[ "QmPeer" := rcmgr.stat examplePeer ]} |}, None).
Proof.
  assert (Hinj : forall p q, examplePretty p = examplePretty q -> p = q)
    by (intros p q H; exact H).
  assert (Hall : Peers (NetStat exampleDecode examplePretty examplePeerManager "all").1.2
                 = Some {[ "QmPeer" := rcmgr.stat examplePeer ]})
    by (vm_compute; reflexivity).
  assert (Hdecode : exampleDecode "QmPeer" = inl "QmPeer") by reflexivity.
  assert (Hlisted : ({[ "QmPeer" := rcmgr.stat examplePeer ]}
                       : gmap string network.ScopeStat) !! examplePretty "QmPeer"
                    = Some (rcmgr.stat examplePeer))
    by (vm_compute; reflexivity).
  exact (conj Hinj (conj Hall (conj Hdecode (conj Hlisted
           (proj2 (proj2 (NetStat_all_lists_peers_by_Pretty exampleDecode examplePretty
                            examplePeerManager _ Hinj Hall))
              "QmPeer" "QmPeer" (rcmgr.stat examplePeer) Hdecode Hlisted))))).
Defined.

(** X8 with [all] between two valid addresses. *)
Lemma applyLimits_stops_at_first_invalid_example :
  Forall (fun e => validAddress exampleDecode e.1) (("system", exampleStatic) :: nil)
  /\ ~ validAddress exampleDecode "all"
  /\ applyLimits exampleDecode exampleManager
       (app (("system", exampleStatic) :: nil)
            (("all", exampleStatic) :: ("transient", exampleStatic) :: nil))
     = inr (Errorf_applying_limits "all" (addressError exampleDecode "all"))
  /\ (NetSetLimit exampleDecode exampleManager "all" exampleStatic).2
     = Some (addressError exampleDecode "all")
  /\ (addressError exampleDecode "all" = Errorf_invalid_scope "all"
      \/ exists p err,
           "all" = String.append "peer:" p /\ exampleDecode p = inr err
           /\ addressError exampleDecode "all" = Errorf_invalid_peer_ID p err).
Proof.
  assert (Hpre : Forall (fun e => validAddress exampleDecode e.1)
                   (("system", exampleStatic) :: nil)).
  { constructor; [|constructor].
    apply addressKey_valid. exists keySystem. vm_compute. reflexivity. }
  assert (Hall : ~ validAddress exampleDecode "all").
  { intros Hvalid. apply addressKey_valid in Hvalid. destruct Hvalid as [k Hk].
    vm_compute in Hk. discriminate. }
  exact (conj Hpre (conj Hall
           (applyLimits_stops_at_first_invalid exampleDecode exampleManager
              (("system", exampleStatic) :: nil)
              (("transient", exampleStatic) :: nil)
              "all" exampleStatic Hpre Hall))).
Defined.

(** X9 with the limit the example configuration gives the system scope,
    the constructor starting from the empty registry. *)
Lemma configured_limits_in_effect_example :
  ResourceManager exampleDecode exampleConfig (exampleEnv "") ∅
  = Some (list_to_set metricNames, inl (inr exampleConfigured))
  /\ config.Limits exampleConfig
     = app nil (("system", exampleStatic)
                  :: ("peer:QmPeer", exampleStaticWithMin) :: nil)
  /\ Forall (fun e => addressKey exampleDecode e.1 <> addressKey exampleDecode "system")
       (("peer:QmPeer", exampleStaticWithMin) :: nil)
  /\ NetLimit exampleDecode exampleConfigured "system"
     = (exampleConfigured, readBack exampleStatic, None).
Proof.
  assert (Hok : ResourceManager exampleDecode exampleConfig (exampleEnv "") ∅
                = Some (list_to_set metricNames, inl (inr exampleConfigured)))
    by (vm_compute; reflexivity).
  assert (Hlimits : config.Limits exampleConfig
                    = app nil (("system", exampleStatic)
                                 :: ("peer:QmPeer", exampleStaticWithMin) :: nil))
    by reflexivity.
  assert (Hlater : Forall (fun e => addressKey exampleDecode e.1
                                    <> addressKey exampleDecode "system")
                     (("peer:QmPeer", exampleStaticWithMin) :: nil)).
  { constructor; [|constructor]. vm_compute. discriminate. }
  exact (conj Hok (conj Hlimits (conj Hlater
           (configured_limits_in_effect exampleDecode exampleConfig (exampleEnv "")
              ∅ (list_to_set metricNames) exampleConfigured
              nil (("peer:QmPeer", exampleStaticWithMin) :: nil)
              "system" exampleStatic Hok Hlimits Hlater)))).
Defined.

(** X10 with a configuration that gives a limit to [all], the constructor
    starting from the empty registry. *)
Lemma invalid_limit_address_fails_constructor_example :
  ResourceManager_enabled exampleConfigAll (exampleEnv "") = true
  /\ In ("all", exampleStatic) (config.Limits exampleConfigAll)
  /\ ~ validAddress exampleDecode "all"
  /\ (forall n, n ∈ metricNames -> n ∉ (∅ : prometheus.Registry))
  /\ exists reg' err,
       ResourceManager exampleDecode exampleConfigAll (exampleEnv "") ∅
       = Some (reg', inr err).
Proof.
  assert (Henabled : ResourceManager_enabled exampleConfigAll (exampleEnv "") = true)
    by reflexivity.
  assert (Hin : In ("all", exampleStatic) (config.Limits exampleConfigAll))
    by (right; left; reflexivity).
  assert (Hall : ~ validAddress exampleDecode "all").
  { intros Hvalid. apply addressKey_valid in Hvalid. destruct Hvalid as [k Hk].
    vm_compute in Hk. discriminate. }
  assert (Hfresh : forall n, n ∈ metricNames -> n ∉ (∅ : prometheus.Registry))
    by (intros n _; apply not_elem_of_empty).
  exact (conj Henabled (conj Hin (conj Hall (conj Hfresh
           (proj2 (invalid_limit_address_fails_constructor exampleDecode
                     exampleConfigAll (exampleEnv "") ∅ "all" exampleStatic
                     Henabled Hin Hall)
              Hfresh))))).
Defined.

(** X11 on the empty registry. *)
Lemma createRcmgrMetrics_once_example :
  is_Some (createRcmgrMetrics ∅)
  /\ (forall reg' r,
        createRcmgrMetrics ∅ = Some (reg', r) ->
        reg' = list_to_set metricNames ∪ ∅
        /\ createRcmgrMetrics reg' = None).
Proof.
  split.
  - apply (proj1 (createRcmgrMetrics_once ∅)). intros n _. apply not_elem_of_empty.
  - exact (proj2 (createRcmgrMetrics_once ∅)).
Defined.

(** [createRcmgrMetrics] on the empty registry, evaluated. *)
Lemma exampleCreated : { x | createRcmgrMetrics ∅ = Some x }.
Proof. eexists. vm_compute. reflexivity. Defined.

(** The reporter it returns. *)
Definition exampleReporter : rcmgrMetrics := (proj1_sig exampleCreated).2.

(** X12 with four calls to the reporter made on the empty registry. *)
Lemma reporter_counts_every_call_example :
  createRcmgrMetrics ∅ = Some ((proj1_sig exampleCreated).1, exampleReporter)
  /\ Forall (fun c => namesValid c = true) exampleCalls
  /\ exists r,
       reportAll exampleReporter exampleCalls = Some r
       /\ (forall x lvs,
             read r x lvs
             = List.length (filter (fun c => seriesOf c = (x, lvs)) exampleCalls)).
Proof.
  assert (Hcreate : createRcmgrMetrics ∅
                    = Some ((proj1_sig exampleCreated).1, exampleReporter))
    by exact (proj2_sig exampleCreated).
  assert (Hvalid : Forall (fun c => namesValid c = true) exampleCalls)
    by (repeat constructor).
  split; [exact Hcreate|]. split; [exact Hvalid|].
  destruct (proj2 (proj1 (reporter_counts_every_call ∅ _ exampleReporter exampleCalls
                            Hcreate))
              Hvalid) as [r Hr].
  exists r. split; [exact Hr|].
  exact (proj2 (reporter_counts_every_call ∅ _ exampleReporter exampleCalls Hcreate)
           r Hr).
Defined.

(** X13 with the example calls and the same calls in reverse. *)
Lemma reportAll_order_independent_example :
  Permutation exampleCalls (rev exampleCalls)
  /\ reportAll exampleReporter exampleCalls
     = reportAll exampleReporter (rev exampleCalls).
Proof.
  assert (Hperm : Permutation exampleCalls (rev exampleCalls))
    by apply Permutation_rev.
  exact (conj Hperm (reportAll_order_independent exampleReporter _ _ Hperm)).
Defined.
